(** * copy-to: the path helpers and the batch copy workflow of [copyUtils.ts]

    A shallow embedding of [src/copyUtils.ts] and of the command handler
    registered by [activate].  Strings are [String.string]; the calls into
    Node ([os], [path]) and into the editor host ([vscode.workspace.fs],
    [vscode.window]) are the only effects of the program, and they are
    modelled as a state-and-trace monad over an arbitrary host. *)

From Stdlib Require Import String Ascii List Bool Arith Lia.
From Stdlib Require Import DecimalString.
Import ListNotations.
Local Open Scope string_scope.

(** ** JavaScript string primitives used by the source *)

Module JsString.

(** [s.startsWith(p)]. *)
Definition startsWith (s p : string) : bool := String.prefix p s.

(** [s.slice(n)] for [0 <= n]: the string without its first [n] units. *)
Fixpoint slice (n : nat) (s : string) : string :=
  match n, s with
  | O, _ => s
  | S _, EmptyString => EmptyString
  | S n', String _ s' => slice n' s'
  end.

(** [s.endsWith("/")], written as the test [normalize] makes on the last unit. *)
Fixpoint endsWithSlash (s : string) : bool :=
  match s with
  | EmptyString => false
  | String c EmptyString => Ascii.eqb c "/"
  | String _ s' => endsWithSlash s'
  end.

(** Template-literal rendering of a non-negative integer counter. *)
Definition ofNat (n : nat) : string := NilEmpty.string_of_uint (Nat.to_uint n).

End JsString.

(** ** Node's [path] module, POSIX flavour

    [path.join] and [path.basename] are library procedures; they are
    modelled on path segments: [normalize] drops empty and ["."] segments,
    lets [".."] cancel the segment before it, and keeps a trailing
    separator. *)

Module NodePath.

(** The segments of a path: the pieces between separators. *)
Fixpoint split (s : string) : list string :=
  match s with
  | EmptyString => [EmptyString]
  | String c s' =>
      if Ascii.eqb c "/" then EmptyString :: split s'
      else match split s' with
           | seg :: segs => String c seg :: segs
           | [] => [String c EmptyString]
           end
  end.

(** One step of [normalizeString]: [stack] holds the kept segments, most
    recent first. *)
Definition pushSegment (allowAboveRoot : bool) (stack : list string)
    (seg : string) : list string :=
  if String.eqb seg "" then stack
  else if String.eqb seg "." then stack
  else if String.eqb seg ".." then
    match stack with
    | top :: below =>
        if String.eqb top ".." then
          (if allowAboveRoot then seg :: stack else stack)
        else below
    | [] => if allowAboveRoot then [seg] else []
    end
  else seg :: stack.

Definition normalizeString (path : string) (allowAboveRoot : bool) : string :=
  String.concat "/"
    (rev (fold_left (pushSegment allowAboveRoot) (split path) [])).

Definition normalize (path : string) : string :=
  if String.eqb path "" then "."
  else
    let isAbsolute := JsString.startsWith path "/" in
    let trailingSeparator := JsString.endsWithSlash path in
    let res := normalizeString path (negb isAbsolute) in
    if String.eqb res "" then
      (if isAbsolute then "/" else if trailingSeparator then "./" else ".")
    else
      let res' := if trailingSeparator then res ++ "/" else res in
      if isAbsolute then "/" ++ res' else res'.

(** [path.join(a, b)]: empty arguments are dropped, the others are glued
    with a separator and the result is normalized. *)
Definition join (a b : string) : string :=
  if String.eqb a "" then
    (if String.eqb b "" then "." else normalize b)
  else if String.eqb b "" then normalize a
  else normalize (a ++ "/" ++ b).

(** [path.basename(p)]: the last non-empty segment, or the empty string. *)
Definition basename (p : string) : string :=
  match filter (fun seg => negb (String.eqb seg "")) (rev (split p)) with
  | seg :: _ => seg
  | [] => ""
  end.

End NodePath.

(** ** Path Resolver and display transform *)

Section Paths.

(** [os.homedir()]. *)
Variable homedir : string.

Definition resolvePath (inputPath : string) : string :=
  if JsString.startsWith inputPath "~" then
    NodePath.join homedir (JsString.slice 1 inputPath)
  else inputPath.

Definition formatDestinationForDisplay (destPath : string) : string :=
  if JsString.startsWith destPath homedir then
    "~" ++ JsString.slice (String.length homedir) destPath
  else destPath.

End Paths.

(** ** The editor host

    Every call that leaves the extension is a call into the host: the
    workspace file system, the window dialogs and the settings store.  A
    promise settles either by returning a value or by throwing; the thrown
    value is kept as the text a template literal renders it to. *)

Inductive outcome (A : Type) : Type :=
| Returned (value : A)
| Threw (reason : string).
Arguments Returned {A} value.
Arguments Threw {A} reason.

(** [vscode.Uri] of the [file] scheme on a POSIX host, identified by its
    [fsPath].  Paths with an authority part ([//server/...]) are outside
    the model. *)
Record Uri : Type := { fsPath : string }.

(** [Uri.file(path)]: the path is made absolute by a leading separator. *)
Definition Uri_file (path : string) : Uri :=
  {| fsPath := if JsString.startsWith path "/" then path else "/" ++ path |}.

(** [Uri.joinPath(base, segment)]: [path.posix.join] on the path. *)
Definition Uri_joinPath (base : Uri) (segment : string) : Uri :=
  Uri_file (NodePath.join (fsPath base) segment).

Inductive FileType : Type := Unknown | File | Directory | SymbolicLink.

Record OpenDialogOptions : Type := {
  canSelectFiles : bool;
  canSelectFolders : bool;
  canSelectMany : bool;
  openLabel : string;
  title : string
}.

(** One entry of the trace: the call made and how the host answered. *)
Inductive Event : Type :=
| EShowOpenDialog (options : OpenDialogOptions) (selected : option (list Uri))
| EStat (uri : Uri) (result : outcome FileType)
| ECreateDirectory (uri : Uri) (result : outcome unit)
| ECopy (source target : Uri) (overwrite : bool) (result : outcome unit)
| EWarningModal (message : string) (items : list string) (picked : option string)
| EWarningMessage (message : string)
| EErrorMessage (message : string)
| EInformationMessage (message : string).

Record Host (World : Type) : Type := {
  os_homedir : string;
  configuration : string -> string -> World -> option string;
  window_showOpenDialog :
    OpenDialogOptions -> World -> option (list Uri) * World;
  window_showWarningModal :
    string -> list string -> World -> option string * World;
  fs_stat : Uri -> World -> outcome FileType * World;
  fs_createDirectory : Uri -> World -> outcome unit * World;
  fs_copy : Uri -> Uri -> bool -> World -> outcome unit * World
}.
Arguments os_homedir {World} _.
Arguments configuration {World} _ _ _ _.
Arguments window_showOpenDialog {World} _ _ _.
Arguments window_showWarningModal {World} _ _ _ _.
Arguments fs_stat {World} _ _ _.
Arguments fs_createDirectory {World} _ _ _.
Arguments fs_copy {World} _ _ _ _ _.

(** Classification of trace entries. *)
Definition isMutation (e : Event) : bool :=
  match e with
  | ECreateDirectory _ _ | ECopy _ _ _ _ => true
  | _ => false
  end.

Definition isCopy (e : Event) : bool :=
  match e with
  | ECopy _ _ _ _ => true
  | _ => false
  end.

Definition isMessage (e : Event) : bool :=
  match e with
  | EWarningModal _ _ _ | EWarningMessage _
  | EErrorMessage _ | EInformationMessage _ => true
  | _ => false
  end.

Definition isErrorMessage (e : Event) : bool :=
  match e with
  | EErrorMessage _ => true
  | _ => false
  end.

Definition isPlainWarning (e : Event) : bool :=
  match e with
  | EWarningMessage _ => true
  | _ => false
  end.

Definition notPlainWarning (e : Event) : bool := negb (isPlainWarning e).

(** An existence check that found the entry. *)
Definition isConflict (e : Event) : bool :=
  match e with
  | EStat _ (Returned _) => true
  | _ => false
  end.

Definition isFailedCopy (e : Event) : bool :=
  match e with
  | ECopy _ _ _ (Threw _) => true
  | _ => false
  end.

(** ** The workflow monad: host state threaded through, trace written out *)

Definition M (World A : Type) : Type := World -> A * World * list Event.

Definition ret {World A : Type} (a : A) : M World A :=
  fun w => (a, w, []).

Definition bind {World A B : Type} (m : M World A) (k : A -> M World B)
    : M World B :=
  fun w =>
    let '(a, w1, t1) := m w in
    let '(b, w2, t2) := k a w1 in
    (b, w2, (t1 ++ t2)%list).

Definition emit {World : Type} (e : Event) : M World unit :=
  fun w => (tt, w, [e]).

Declare Scope workflow_scope.
Delimit Scope workflow_scope with workflow.
Notation "x <- m ;; k" := (bind m (fun x => k))
  (at level 61, m at next level, right associativity) : workflow_scope.
Notation "m ;; k" := (bind m (fun _ => k))
  (at level 61, right associativity) : workflow_scope.

(** Every entry a run of [m] writes to the trace satisfies [P]. *)
Definition emitsOnly {World A : Type} (P : Event -> bool) (m : M World A)
    : Prop :=
  forall w, forallb P (snd (m w)) = true.

Definition dquote : string := String (Ascii.ascii_of_nat 34) EmptyString.

(** User action for conflict resolution. *)
Inductive OverwriteAction : Type := overwrite | skip | cancel.

(** Result of single item copy operation. *)
Inductive CopyResult : Type := success | skipped | cancelled.

Definition isSuccess (r : CopyResult) : bool :=
  match r with success => true | _ => false end.

Definition isSkipped (r : CopyResult) : bool :=
  match r with skipped => true | _ => false end.

(** What [promptOverwrite] makes of the label the user picked. *)
Definition actionOf (picked : option string) : OverwriteAction :=
  match picked with
  | Some label =>
      if String.eqb label "Overwrite" then overwrite
      else if String.eqb label "Skip" then skip
      else cancel
  | None => cancel
  end.

(** Further classifications of trace entries, by call and by answer. *)
Definition isStat (e : Event) : bool :=
  match e with
  | EStat _ _ => true
  | _ => false
  end.

Definition isCreateDirectory (e : Event) : bool :=
  match e with
  | ECreateDirectory _ _ => true
  | _ => false
  end.


Definition isPrompt (e : Event) : bool :=
  match e with
  | EWarningModal _ _ _ => true
  | _ => false
  end.

Definition isInformation (e : Event) : bool :=
  match e with
  | EInformationMessage _ => true
  | _ => false
  end.

Definition isSucceededCopy (e : Event) : bool :=
  match e with
  | ECopy _ _ _ (Returned _) => true
  | _ => false
  end.

(** A prompt the user answered with Skip. *)
Definition isSkipAnswer (e : Event) : bool :=
  match e with
  | EWarningModal _ _ picked =>
      match actionOf picked with skip => true | _ => false end
  | _ => false
  end.

(** A prompt that [promptOverwrite] reads as a cancellation. *)
Definition isCancelAnswer (e : Event) : bool :=
  match e with
  | EWarningModal _ _ picked =>
      match actionOf picked with cancel => true | _ => false end
  | _ => false
  end.


Section Workflow.

Context {World : Type} (host : Host World).

Local Open Scope workflow_scope.

(** *** Host calls *)

Definition showOpenDialog (options : OpenDialogOptions)
    : M World (option (list Uri)) :=
  fun w =>
    let '(selected, w') := window_showOpenDialog host options w in
    (selected, w', [EShowOpenDialog options selected]).

Definition showWarningModal (message : string) (items : list string)
    : M World (option string) :=
  fun w =>
    let '(picked, w') := window_showWarningModal host message items w in
    (picked, w', [EWarningModal message items picked]).

Definition showWarningMessage (message : string) : M World unit :=
  emit (EWarningMessage message).

Definition showErrorMessage (message : string) : M World unit :=
  emit (EErrorMessage message).

Definition showInformationMessage (message : string) : M World unit :=
  emit (EInformationMessage message).

Definition stat (uri : Uri) : M World (outcome FileType) :=
  fun w =>
    let '(r, w') := fs_stat host uri w in (r, w', [EStat uri r]).

Definition createDirectory (uri : Uri) : M World (outcome unit) :=
  fun w =>
    let '(r, w') := fs_createDirectory host uri w in
    (r, w', [ECreateDirectory uri r]).

Definition copy (source target : Uri) (overwriteFlag : bool)
    : M World (outcome unit) :=
  fun w =>
    let '(r, w') := fs_copy host source target overwriteFlag w in
    (r, w', [ECopy source target overwriteFlag r]).

(** [config.get<string>('destinationPath', '')]: the stored value, or the
    default given in the call. *)
Definition configuredPathIn (w : World) : string :=
  match configuration host "copyTo" "destinationPath" w with
  | Some value => value
  | None => EmptyString
  end.

Definition getConfiguredPath : M World string :=
  fun w => (configuredPathIn w, w, []).

(** *** copyUtils.ts *)

Definition selectDestinationOptions : OpenDialogOptions :=
  {| canSelectFiles := false;
     canSelectFolders := true;
     canSelectMany := false;
     openLabel := "Select Destination";
     title := "Select destination folder for copy" |}.

Definition getDestinationUri : M World (option Uri) :=
  configuredPath <- getConfiguredPath ;;
  if negb (String.eqb configuredPath EmptyString) then
    let resolvedPath := resolvePath (os_homedir host) configuredPath in
    ret (Some (Uri_file resolvedPath))
  else
    selected <- showOpenDialog selectDestinationOptions ;;
    match selected with
    | Some (first :: _) => ret (Some first)
    | _ => ret None
    end.

Definition ensureDestinationDirectory (destUri : Uri) : M World bool :=
  found <- stat destUri ;;
  match found with
  | Returned _ => ret true
  | Threw _ =>
      created <- createDirectory destUri ;;
      match created with
      | Returned _ => ret true
      | Threw createError =>
          showErrorMessage
            ("Failed to create destination directory: " ++ createError) ;;
          ret false
      end
  end.

Definition targetExists (targetUri : Uri) : M World bool :=
  found <- stat targetUri ;;
  match found with
  | Returned _ => ret true
  | Threw _ => ret false
  end.

Definition overwriteItems : list string := ["Overwrite"; "Skip"; "Cancel"].

Definition promptMessage (fileName destPath : string) : string :=
  dquote ++ fileName ++ dquote ++ " already exists in " ++ destPath
    ++ ". What would you like to do?".

Definition promptOverwrite (fileName destPath : string) : M World OverwriteAction :=
  result <- showWarningModal (promptMessage fileName destPath) overwriteItems ;;
  match result with
  | Some label =>
      if String.eqb label "Overwrite" then ret overwrite
      else if String.eqb label "Skip" then ret skip
      else ret cancel
  | None => ret cancel
  end.

Definition copyFailedMessage (fileName error : string) : string :=
  "Failed to copy " ++ dquote ++ fileName ++ dquote ++ ": " ++ error.

(** The [try { copy } catch { report }] tail of [copySingleItem]. *)
Definition copyOrReport (sourceUri targetUri : Uri) (fileName : string)
    : M World CopyResult :=
  copied <- copy sourceUri targetUri true ;;
  match copied with
  | Returned _ => ret success
  | Threw error =>
      showErrorMessage (copyFailedMessage fileName error) ;;
      ret skipped
  end.

Definition copySingleItem (sourceUri destUri : Uri) : M World CopyResult :=
  let fileName := NodePath.basename (fsPath sourceUri) in
  let targetUri := Uri_joinPath destUri fileName in
  exists_ <- targetExists targetUri ;;
  if exists_ then
    action <- promptOverwrite fileName (fsPath destUri) ;;
    match action with
    | cancel => ret cancelled
    | skip => ret skipped
    | overwrite => copyOrReport sourceUri targetUri fileName
    end
  else copyOrReport sourceUri targetUri fileName.

Definition cancelledMessage (copiedCount skippedCount : nat) : string :=
  "Cancelled. Copied " ++ JsString.ofNat copiedCount
    ++ " item(s), skipped " ++ JsString.ofNat skippedCount ++ ".".

Definition copiedMessage (copiedCount : nat) (displayPath : string) : string :=
  "Copied " ++ JsString.ofNat copiedCount ++ " item(s) to " ++ displayPath
    ++ ".".

Definition copiedSkippedMessage (copiedCount : nat) (displayPath : string)
    (skippedCount : nat) : string :=
  "Copied " ++ JsString.ofNat copiedCount ++ " item(s) to " ++ displayPath
    ++ ". Skipped " ++ JsString.ofNat skippedCount ++ ".".

Definition allSkippedMessage (skippedCount : nat) : string :=
  "All " ++ JsString.ofNat skippedCount ++ " item(s) were skipped.".

(** The [for (const uri of uris)] loop with its two counters.  [None] is the
    [return] taken inside the loop on cancellation; [Some] carries the
    counters out of a loop that ran to its end. *)
Fixpoint copyItems (destUri : Uri) (uris : list Uri)
    (copiedCount skippedCount : nat) : M World (option (nat * nat)) :=
  match uris with
  | [] => ret (Some (copiedCount, skippedCount))
  | uri :: rest =>
      result <- copySingleItem uri destUri ;;
      match result with
      | success => copyItems destUri rest (S copiedCount) skippedCount
      | skipped => copyItems destUri rest copiedCount (S skippedCount)
      | cancelled =>
          showInformationMessage (cancelledMessage copiedCount skippedCount) ;;
          ret None
      end
  end.

(** The completion message after the loop. *)
Definition showCompletion (displayPath : string)
    (copiedCount skippedCount : nat) : M World unit :=
  if Nat.ltb 0 copiedCount then
    let message :=
      if Nat.ltb 0 skippedCount
      then copiedSkippedMessage copiedCount displayPath skippedCount
      else copiedMessage copiedCount displayPath in
    showInformationMessage message
  else if Nat.ltb 0 skippedCount then
    showInformationMessage (allSkippedMessage skippedCount)
  else ret tt.

Definition copyToDestination (uris : list Uri) : M World unit :=
  destUri <- getDestinationUri ;;
  match destUri with
  | None => ret tt
  | Some destUri =>
      ensured <- ensureDestinationDirectory destUri ;;
      if negb ensured then ret tt
      else
        let displayPath :=
          formatDestinationForDisplay (os_homedir host) (fsPath destUri) in
        counts <- copyItems destUri uris 0 0 ;;
        match counts with
        | None => ret tt
        | Some (copiedCount, skippedCount) =>
            showCompletion displayPath copiedCount skippedCount
        end
  end.

(** *** The command handler registered by [activate] *)

Definition selectTargets (uri : option Uri) (uris : option (list Uri))
    : list Uri :=
  match uris with
  | Some all => all
  | None => match uri with
            | Some one => [one]
            | None => []
            end
  end.

Definition commandHandler (uri : option Uri) (uris : option (list Uri))
    : M World unit :=
  let targets := selectTargets uri uris in
  if Nat.eqb (List.length targets) 0 then
    showWarningMessage "No files or folders selected."
  else copyToDestination targets.

(** *** Observers used to state properties of a run *)

(** The results [copySingleItem] hands to the loop, in order, up to and
    including a cancellation. *)
Fixpoint itemOutcomes (destUri : Uri) (uris : list Uri) (w : World)
    : list CopyResult :=
  match uris with
  | [] => []
  | uri :: rest =>
      let '(result, w', _) := copySingleItem uri destUri w in
      result :: match result with
                | cancelled => []
                | _ => itemOutcomes destUri rest w'
                end
  end.

(** The ways through [copySingleItem]: the target is absent and the copy is
    tried at once, or it is present and the prompt decides. *)
Inductive ItemPath (sourceUri destUri : Uri) (w : World)
    : CopyResult -> World -> list Event -> Prop :=
| PathFresh (reason : string) (w1 w2 : World) (r : CopyResult)
    (t : list Event) :
    fs_stat host
      (Uri_joinPath destUri (NodePath.basename (fsPath sourceUri))) w
    = (Threw reason, w1) ->
    copyOrReport sourceUri
      (Uri_joinPath destUri (NodePath.basename (fsPath sourceUri)))
      (NodePath.basename (fsPath sourceUri)) w1 = (r, w2, t) ->
    ItemPath sourceUri destUri w r w2
      (EStat (Uri_joinPath destUri (NodePath.basename (fsPath sourceUri)))
         (Threw reason) :: t)
| PathPrompted (ty : FileType) (picked : option string) (w1 w2 w3 : World)
    (r : CopyResult) (t : list Event) :
    fs_stat host
      (Uri_joinPath destUri (NodePath.basename (fsPath sourceUri))) w
    = (Returned ty, w1) ->
    window_showWarningModal host
      (promptMessage (NodePath.basename (fsPath sourceUri)) (fsPath destUri))
      overwriteItems w1 = (picked, w2) ->
    match actionOf picked with
    | cancel => (r, w3, t) = (cancelled, w2, [])
    | skip => (r, w3, t) = (skipped, w2, [])
    | overwrite =>
        copyOrReport sourceUri
          (Uri_joinPath destUri (NodePath.basename (fsPath sourceUri)))
          (NodePath.basename (fsPath sourceUri)) w2 = (r, w3, t)
    end ->
    ItemPath sourceUri destUri w r w3
      (EStat (Uri_joinPath destUri (NodePath.basename (fsPath sourceUri)))
         (Returned ty)
       :: EWarningModal
            (promptMessage (NodePath.basename (fsPath sourceUri))
               (fsPath destUri))
            overwriteItems picked
       :: t).

End Workflow.

(** ** A small concrete host, used to run the workflow on examples

    A flat table of entries keyed by path, a read-only switch, the setting,
    and the answers the user is going to give to pickers and prompts. *)

Module Sim.

Inductive Entry : Type :=
| FileEntry (content : string)
| DirEntry.

Record World : Type := {
  entries : list (string * Entry);
  readOnly : bool;
  setting : option string;
  picks : list (option (list Uri));
  answers : list (option string)
}.

Definition withEntries (w : World) (es : list (string * Entry)) : World :=
  {| entries := es; readOnly := readOnly w; setting := setting w;
     picks := picks w; answers := answers w |}.

Fixpoint lookup (path : string) (es : list (string * Entry)) : option Entry :=
  match es with
  | [] => None
  | (p, e) :: rest => if String.eqb p path then Some e else lookup path rest
  end.

Definition typeOf (e : Entry) : FileType :=
  match e with
  | FileEntry _ => File
  | DirEntry => Directory
  end.

(** Does [path] lie below an entry that is a regular file? *)
Definition belowFile (path : string) (es : list (string * Entry)) : bool :=
  existsb (fun pe =>
             match snd pe with
             | FileEntry _ => JsString.startsWith path (fst pe ++ "/")
             | DirEntry => false
             end) es.

Definition stat (uri : Uri) (w : World) : outcome FileType * World :=
  match lookup (fsPath uri) (entries w) with
  | Some e => (Returned (typeOf e), w)
  | None => (Threw "EntryNotFound (FileSystemError)", w)
  end.

Definition createDirectory (uri : Uri) (w : World) : outcome unit * World :=
  if readOnly w then (Threw "NoPermissions (FileSystemError)", w)
  else (Returned tt, withEntries w ((fsPath uri, DirEntry) :: entries w)).

Definition copy (source target : Uri) (overwriteFlag : bool) (w : World)
    : outcome unit * World :=
  match lookup (fsPath source) (entries w) with
  | None => (Threw "EntryNotFound (FileSystemError)", w)
  | Some e =>
      if readOnly w then (Threw "NoPermissions (FileSystemError)", w)
      else if belowFile (fsPath target) (entries w) then
        (Threw "FileNotADirectory (FileSystemError)", w)
      else
        match lookup (fsPath target) (entries w) with
        | Some _ =>
            if overwriteFlag then
              (Returned tt, withEntries w ((fsPath target, e) :: entries w))
            else (Threw "FileExists (FileSystemError)", w)
        | None =>
            (Returned tt, withEntries w ((fsPath target, e) :: entries w))
        end
  end.

Definition showOpenDialog (options : OpenDialogOptions) (w : World)
    : option (list Uri) * World :=
  match picks w with
  | [] => (None, w)
  | pick :: later =>
      (pick, {| entries := entries w; readOnly := readOnly w;
                setting := setting w; picks := later;
                answers := answers w |})
  end.

Definition showWarningModal (message : string) (items : list string)
    (w : World) : option string * World :=
  match answers w with
  | [] => (None, w)
  | answer :: later =>
      (answer, {| entries := entries w; readOnly := readOnly w;
                  setting := setting w; picks := picks w;
                  answers := later |})
  end.

Definition host (home : string) : Host World :=
  {| os_homedir := home;
     configuration := fun section key w =>
       if String.eqb section "copyTo" && String.eqb key "destinationPath"
       then setting w else None;
     window_showOpenDialog := showOpenDialog;
     window_showWarningModal := showWarningModal;
     fs_stat := stat;
     fs_createDirectory := createDirectory;
     fs_copy := copy |}.

Definition file (path content : string) : string * Entry :=
  (path, FileEntry content).

Definition dir (path : string) : string * Entry := (path, DirEntry).

End Sim.

(** Worlds and selections for the worked examples. *)

Module Examples.

Definition home : string := "/home/u".

Definition host : Host Sim.World := Sim.host home.

Definition a_txt : Uri := Uri_file "/src/a.txt".
Definition b_txt : Uri := Uri_file "/src/b.txt".
Definition c_txt : Uri := Uri_file "/src/c.txt".
Definition gone_txt : Uri := Uri_file "/src/gone.txt".
Definition utils : Uri := Uri_file "/home/u/utils".
Definition notes : Uri := Uri_file "/home/u/notes".

(** The answer of [stat] for a path with no entry. *)
Definition absent : outcome FileType :=
  Threw "EntryNotFound (FileSystemError)".

Definition sources : list (string * Sim.Entry) :=
  [Sim.file "/src/a.txt" "A"; Sim.file "/src/b.txt" "B";
   Sim.file "/src/c.txt" "C"; Sim.dir "/src"].

(** The setting is [~/utils]; the folder does not exist yet. *)
Definition fresh : Sim.World :=
  {| Sim.entries := sources; Sim.readOnly := false;
     Sim.setting := Some "~/utils"; Sim.picks := []; Sim.answers := [] |}.

(** The setting is [~/utils]; the folder holds an older [b.txt], and the
    user is going to give [answer] to the one prompt. *)
Definition conflicting (answer : option string) : Sim.World :=
  {| Sim.entries :=
       Sim.file "/home/u/utils/b.txt" "old" :: Sim.dir "/home/u/utils"
         :: sources;
     Sim.readOnly := false; Sim.setting := Some "~/utils";
     Sim.picks := []; Sim.answers := [answer] |}.

(** [conflicting] once the prompt has been answered. *)
Definition answered : Sim.World :=
  {| Sim.entries :=
       Sim.file "/home/u/utils/b.txt" "old" :: Sim.dir "/home/u/utils"
         :: sources;
     Sim.readOnly := false; Sim.setting := Some "~/utils";
     Sim.picks := []; Sim.answers := [] |}.

(** No setting, and the user is going to dismiss the folder picker. *)
Definition unset : Sim.World :=
  {| Sim.entries := sources; Sim.readOnly := false;
     Sim.setting := Some EmptyString; Sim.picks := [None];
     Sim.answers := [] |}.

Definition unsetDismissed : Sim.World :=
  {| Sim.entries := sources; Sim.readOnly := false;
     Sim.setting := Some EmptyString; Sim.picks := [];
     Sim.answers := [] |}.

(** The setting is [~/notes], and [/home/u/notes] is a regular file. *)
Definition occupied : Sim.World :=
  {| Sim.entries := Sim.file "/home/u/notes" "todo" :: sources;
     Sim.readOnly := false; Sim.setting := Some "~/notes";
     Sim.picks := []; Sim.answers := [] |}.

(** The setting is [~/utils] on a volume that rejects every write. *)
Definition locked : Sim.World :=
  {| Sim.entries := sources; Sim.readOnly := true;
     Sim.setting := Some "~/utils"; Sim.picks := []; Sim.answers := [] |}.

End Examples.

(** ** Paths in normal form

    The shapes on which [path.join] is plain concatenation. *)

Fixpoint noSlash (s : string) : bool :=
  match s with
  | EmptyString => true
  | String c s' => negb (Ascii.eqb c "/") && noSlash s'
  end.

(** A segment [normalize] keeps untouched: not empty, no separator in it,
    and neither ["."] nor [".."]. *)
Definition plainSegment (seg : string) : bool :=
  noSlash seg && negb (String.eqb seg "") && negb (String.eqb seg ".")
    && negb (String.eqb seg "..").

(** ["/s1/s2/.../sn"]; the empty string for no segment. *)
Fixpoint rooted (segs : list string) : string :=
  match segs with
  | [] => EmptyString
  | seg :: more => "/" ++ seg ++ rooted more
  end.

Definition trailingSlash (trailing : bool) : string :=
  if trailing then "/" else EmptyString.

(** A string that is empty or begins with a separator. *)
Definition sepStart (s : string) : bool :=
  match s with
  | EmptyString => true
  | String c _ => Ascii.eqb c "/"
  end.

(** A run with the trace [t] of an earlier run put in front of its own. *)
Definition prepend {World A : Type} (t : list Event)
    (r : A * World * list Event) : A * World * list Event :=
  let '(a, w, t') := r in (a, w, (t ++ t')%list).

Definition count {A : Type} (f : A -> bool) (l : list A) : nat :=
  List.length (filter f l).

(** [fold_left pushSegment] over the segments of a string. *)
Definition pushAll (b : bool) (st : list string) (s : string) : list string :=
  fold_left (NodePath.pushSegment b) (NodePath.split s) st.

(** * Properties *)

(** ** Strings *)

Lemma append_nil_r (s : string) : s ++ "" = s.
Proof. induction s as [|c s IH]; simpl; [reflexivity | now rewrite IH]. Qed.

Lemma append_assoc (a b c : string) : (a ++ b) ++ c = a ++ b ++ c.
Proof. induction a as [|x a IH]; simpl; [reflexivity | now rewrite IH]. Qed.

Lemma startsWith_append (p r : string) : JsString.startsWith (p ++ r) p = true.
Proof.
  unfold JsString.startsWith.
  induction p as [|c p IH]; simpl.
  - now destruct r.
  - destruct (ascii_dec c c) as [_|ne]; [exact IH | now elim ne].
Qed.

Lemma slice_append (p r : string) : JsString.slice (String.length p) (p ++ r) = r.
Proof. induction p as [|c p IH]; simpl; [reflexivity | exact IH]. Qed.

Lemma endsWithSlash_append (x y : string) :
  y <> "" -> JsString.endsWithSlash (x ++ y) = JsString.endsWithSlash y.
Proof.
  intros Hy. induction x as [|c x IH]; simpl; [reflexivity|].
  rewrite IH. destruct (x ++ y) eqn:E; [|reflexivity].
  destruct x; simpl in E; [now elim Hy | discriminate].
Qed.

Lemma endsWithSlash_noSlash (a : string) :
  noSlash a = true -> JsString.endsWithSlash a = false.
Proof.
  induction a as [|c a IH]; simpl; [reflexivity|].
  intros H. apply andb_true_iff in H as [Hc Ha].
  destruct a; [now apply negb_true_iff in Hc | now apply IH].
Qed.

(** ** Segments *)

Lemma plainSegment_noSlash (a : string) : plainSegment a = true -> noSlash a = true.
Proof.
  unfold plainSegment. intros H.
  repeat (apply andb_true_iff in H as [H _]). exact H.
Qed.

Lemma plainSegment_nonempty (a : string) : plainSegment a = true -> a <> "".
Proof.
  unfold plainSegment. intros H ->. simpl in H.
  discriminate.
Qed.

Lemma pushSegment_plain (b : bool) (st : list string) (a : string) :
  plainSegment a = true -> NodePath.pushSegment b st a = a :: st.
Proof.
  unfold plainSegment, NodePath.pushSegment. intros H.
  apply andb_true_iff in H as [H H3]. apply andb_true_iff in H as [H H2].
  apply andb_true_iff in H as [_ H1].
  apply negb_true_iff in H1, H2, H3. now rewrite H1, H2, H3.
Qed.

Lemma split_not_nil (s : string) : NodePath.split s <> [].
Proof.
  induction s as [|c s IH]; simpl; [discriminate|].
  destruct (Ascii.eqb c "/"); [discriminate|].
  destruct (NodePath.split s); [now elim IH | discriminate].
Qed.

Lemma split_segment_append (a y : string) :
  noSlash a = true ->
  NodePath.split (a ++ y) =
    match NodePath.split y with
    | seg :: segs => (a ++ seg) :: segs
    | [] => [a]
    end.
Proof.
  induction a as [|c a IH]; simpl.
  - intros _. destruct (NodePath.split y) eqn:E; [now elim (split_not_nil y) | reflexivity].
  - intros H. apply andb_true_iff in H as [Hc Ha]. apply negb_true_iff in Hc.
    rewrite Hc, (IH Ha).
    destruct (NodePath.split y) eqn:E; [now elim (split_not_nil y) | reflexivity].
Qed.

Lemma pushAll_slash (b : bool) (st : list string) (u : string) :
  pushAll b st ("/" ++ u) = pushAll b st u.
Proof. reflexivity. Qed.

Lemma pushAll_sepStart (b : bool) (st : list string) (y : string) :
  sepStart y = true ->
  fold_left (NodePath.pushSegment b)
    (match NodePath.split y with
     | seg :: segs => segs
     | [] => []
     end) st = pushAll b st y.
Proof.
  destruct y as [|c y]; simpl; [reflexivity|].
  intros H. unfold pushAll. simpl. now rewrite H.
Qed.

Lemma split_sepStart_head (y : string) :
  sepStart y = true ->
  exists segs, NodePath.split y = EmptyString :: segs.
Proof.
  destruct y as [|c y]; simpl; [now exists []|].
  intros ->. now eexists.
Qed.

Lemma pushAll_plain (b : bool) (st : list string) (a y : string) :
  plainSegment a = true -> sepStart y = true ->
  pushAll b st (a ++ y) = pushAll b (a :: st) y.
Proof.
  intros Ha Hy. unfold pushAll at 1.
  rewrite (split_segment_append a y (plainSegment_noSlash a Ha)).
  destruct (split_sepStart_head y Hy) as [segs E].
  unfold pushAll. rewrite E. simpl.
  rewrite append_nil_r, (pushSegment_plain b st a Ha). reflexivity.
Qed.

Lemma sepStart_rooted_append (segs : list string) (t : string) :
  sepStart t = true -> sepStart (rooted segs ++ t) = true.
Proof. destruct segs; simpl; [trivial | reflexivity]. Qed.

Lemma pushAll_rooted (b : bool) (segs : list string) :
  forallb plainSegment segs = true ->
  forall (st : list string) (t : string),
    sepStart t = true ->
    pushAll b st (rooted segs ++ t) = pushAll b (rev segs ++ st)%list t.
Proof.
  induction segs as [|a more IH]; simpl; intros H st t Ht; [reflexivity|].
  apply andb_true_iff in H as [Ha Hmore].
  change (pushAll b st ("/" ++ (a ++ rooted more) ++ t)
          = pushAll b ((rev more ++ [a]) ++ st)%list t).
  rewrite pushAll_slash, append_assoc.
  rewrite (pushAll_plain b st a _ Ha (sepStart_rooted_append more t Ht)).
  rewrite (IH Hmore (a :: st) t Ht), <- app_assoc. reflexivity.
Qed.

Lemma pushAll_trailing (b : bool) (st : list string) (trailing : bool) :
  pushAll b st (trailingSlash trailing) = st.
Proof. now destruct trailing. Qed.

Lemma rooted_app (xs ys : list string) :
  rooted (xs ++ ys) = rooted xs ++ rooted ys.
Proof.
  induction xs as [|a xs IH]; simpl; [reflexivity|].
  now rewrite IH, append_assoc.
Qed.

Lemma rooted_concat (segs : list string) :
  segs <> [] -> "/" ++ String.concat "/" segs = rooted segs.
Proof.
  induction segs as [|a more IH]; [now intros H; elim H|].
  intros _. destruct more as [|a' more'].
  - simpl. now rewrite append_nil_r.
  - change ("/" ++ a ++ "/" ++ String.concat "/" (a' :: more')
            = "/" ++ a ++ rooted (a' :: more')).
    rewrite IH; [reflexivity | discriminate].
Qed.

Lemma concat_plain_nonempty (a : string) (more : list string) :
  a <> "" -> String.concat "/" (a :: more) <> "".
Proof.
  intros Ha. destruct a as [|c a]; [now elim Ha|].
  destruct more; simpl; discriminate.
Qed.

Lemma endsWithSlash_rooted (segs : list string) :
  forallb plainSegment segs = true -> segs <> [] ->
  forall x, JsString.endsWithSlash (x ++ rooted segs) = false.
Proof.
  induction segs as [|a more IH]; [now intros _ H; elim H|].
  simpl. intros H _ x. apply andb_true_iff in H as [Ha Hmore].
  destruct more as [|a' more'].
  - simpl. rewrite append_nil_r.
    change (x ++ String "/" a) with (x ++ "/" ++ a).
    rewrite <- append_assoc, endsWithSlash_append.
    + apply endsWithSlash_noSlash, plainSegment_noSlash, Ha.
    + apply plainSegment_nonempty, Ha.
  - change (x ++ String "/" (a ++ rooted (a' :: more')))
      with (x ++ "/" ++ a ++ rooted (a' :: more')).
    rewrite <- (append_assoc "/"), <- append_assoc.
    apply IH; [exact Hmore | discriminate].
Qed.

Lemma endsWithSlash_shape (hs rs : list string) (gap trailing : bool) :
  forallb plainSegment hs = true -> forallb plainSegment rs = true ->
  hs <> [] -> (rs = [] -> trailing = false -> gap = false) ->
  JsString.endsWithSlash
    (rooted hs ++ trailingSlash gap ++ rooted rs ++ trailingSlash trailing)
  = trailing.
Proof.
  intros Hhs Hrs Hne Hgap.
  destruct trailing; simpl.
  - rewrite <- !append_assoc. rewrite endsWithSlash_append; [reflexivity | discriminate].
  - rewrite append_nil_r. destruct rs as [|r rs'].
    + rewrite (Hgap eq_refl eq_refl). simpl. rewrite append_nil_r.
      apply (endsWithSlash_rooted hs Hhs Hne "").
    + rewrite <- append_assoc.
      apply endsWithSlash_rooted; [exact Hrs | discriminate].
Qed.

Lemma normalize_shape (hs rs : list string) (gap trailing : bool) :
  forallb plainSegment hs = true -> forallb plainSegment rs = true ->
  hs <> [] -> (rs = [] -> trailing = false -> gap = false) ->
  NodePath.normalize
    (rooted hs ++ trailingSlash gap ++ rooted rs ++ trailingSlash trailing)
  = rooted (hs ++ rs) ++ trailingSlash trailing.
Proof.
  intros Hhs Hrs Hne Hgap.
  unfold NodePath.normalize.
  rewrite (endsWithSlash_shape hs rs gap trailing Hhs Hrs Hne Hgap).
  unfold NodePath.normalizeString.
  change (fold_left (NodePath.pushSegment ?b) (NodePath.split ?p) ?st)
    with (pushAll b st p).
  assert (Hpush : forall b,
             pushAll b [] (rooted hs ++ trailingSlash gap ++ rooted rs
                             ++ trailingSlash trailing)
             = (rev rs ++ rev hs)%list).
  { intros b. rewrite (pushAll_rooted b hs Hhs).
    - rewrite app_nil_r.
      assert (Hgo : pushAll b (rev hs) (rooted rs ++ trailingSlash trailing)
                    = (rev rs ++ rev hs)%list).
      { rewrite (pushAll_rooted b rs Hrs); [apply pushAll_trailing | now destruct trailing]. }
      destruct gap; [|exact Hgo].
      change (trailingSlash true ++ ?u) with ("/" ++ u).
      rewrite pushAll_slash. exact Hgo.
    - destruct gap; [reflexivity|].
      apply sepStart_rooted_append. now destruct trailing. }
  rewrite Hpush, <- rev_app_distr, rev_involutive.
  destruct hs as [|h hs']; [now elim Hne|].
  simpl in Hhs. apply andb_true_iff in Hhs as [Hh Hhs'].
  assert (Hres : String.concat "/" ((h :: hs') ++ rs) <> "").
  { apply concat_plain_nonempty, plainSegment_nonempty, Hh. }
  apply String.eqb_neq in Hres. rewrite Hres.
  rewrite <- (rooted_concat ((h :: hs') ++ rs)); [|discriminate].
  change (rooted (h :: hs')) with ("/" ++ h ++ rooted hs').
  rewrite (append_assoc "/"), startsWith_append.
  simpl String.eqb. cbv iota.
  destruct trailing; simpl trailingSlash.
  - now rewrite append_assoc.
  - now rewrite append_nil_r.
Qed.

Lemma join_home_rest (hs rs : list string) (trailing : bool) :
  hs <> [] ->
  forallb plainSegment hs = true -> forallb plainSegment rs = true ->
  NodePath.join (rooted hs) (rooted rs ++ trailingSlash trailing)
  = rooted hs ++ rooted rs ++ trailingSlash trailing.
Proof.
  intros Hne Hhs Hrs. unfold NodePath.join.
  destruct hs as [|h hs']; [now elim Hne|].
  simpl rooted at 1. simpl String.eqb at 1. cbv iota.
  change ("/" ++ h ++ rooted hs') with (rooted (h :: hs')).
  destruct (String.eqb_spec (rooted rs ++ trailingSlash trailing) "") as [E|NE].
  - rewrite E.
    generalize (normalize_shape (h :: hs') [] false false Hhs eq_refl Hne
                  (fun _ _ => eq_refl)).
    simpl trailingSlash. simpl (rooted []).
    rewrite !append_nil_r, app_nil_r. trivial.
  - generalize (normalize_shape (h :: hs') rs true trailing Hhs Hrs Hne).
    intros Hn. rewrite rooted_app in Hn.
    change (trailingSlash true) with "/" in Hn.
    rewrite append_assoc in Hn. apply Hn.
    intros -> ->. now elim NE.
Qed.

(** C1, counterexample: with home [/home/u], [~foo] expands to
    [/home/u/foo], which is displayed as [~/foo]; [/home/u/a/../b] is
    displayed as [~/a/../b], which expands to [/home/u/b]; and with home
    [/home/user], [/home/user2/x] is displayed as [~2/x], which expands to
    [/home/user/2/x].  Each input is in the domain the claim quantifies
    over. *)
Lemma resolve_format_not_inverse :
  (JsString.startsWith "~foo" "~" = true
   /\ resolvePath "/home/u" "~foo" = "/home/u/foo"
   /\ formatDestinationForDisplay "/home/u" "/home/u/foo" = "~/foo"
   /\ formatDestinationForDisplay "/home/u" (resolvePath "/home/u" "~foo")
      <> "~foo")
  /\ (JsString.startsWith "/home/u/a/../b" "/home/u" = true
      /\ formatDestinationForDisplay "/home/u" "/home/u/a/../b" = "~/a/../b"
      /\ resolvePath "/home/u" "~/a/../b" = "/home/u/b"
      /\ resolvePath "/home/u"
           (formatDestinationForDisplay "/home/u" "/home/u/a/../b")
         <> "/home/u/a/../b")
  /\ (JsString.startsWith "/home/user2/x" "/home/user" = true
      /\ resolvePath "/home/user"
           (formatDestinationForDisplay "/home/user" "/home/user2/x")
         <> "/home/user2/x").
Proof. repeat split; (reflexivity || (vm_compute; discriminate)). Qed.

(** C1, amended: when the home directory is a normalized absolute path
    [/h1/.../hm] with at least one segment, and the remainder after the
    marker is empty or a run of [/]-prefixed plain segments with an optional
    trailing [/], then [resolvePath] maps [~rest] to [home ++ rest],
    [formatDestinationForDisplay] maps [home ++ rest] to [~rest], and the
    two functions undo each other on these paths. *)
Theorem resolve_format_inverse_normal (hs rs : list string) (trailing : bool) :
  hs <> [] ->
  forallb plainSegment hs = true -> forallb plainSegment rs = true ->
  let home := rooted hs in
  let rest := rooted rs ++ trailingSlash trailing in
  resolvePath home ("~" ++ rest) = home ++ rest
  /\ formatDestinationForDisplay home (home ++ rest) = "~" ++ rest
  /\ formatDestinationForDisplay home (resolvePath home ("~" ++ rest))
     = "~" ++ rest
  /\ resolvePath home (formatDestinationForDisplay home (home ++ rest))
     = home ++ rest.
Proof.
  intros Hne Hhs Hrs home rest.
  assert (R : resolvePath home ("~" ++ rest) = home ++ rest).
  { unfold resolvePath.
    rewrite (startsWith_append "~" rest).
    rewrite (slice_append "~" rest : JsString.slice 1 ("~" ++ rest) = rest).
    apply join_home_rest; assumption. }
  assert (F : formatDestinationForDisplay home (home ++ rest) = "~" ++ rest).
  { unfold formatDestinationForDisplay.
    now rewrite startsWith_append, slice_append. }
  repeat split; [exact R | exact F | now rewrite R | now rewrite F].
Qed.

(** The round trip at home [/home/u] and path [~/utils]. *)
Lemma resolve_format_inverse_normal_witness :
  resolvePath "/home/u" "~/utils" = "/home/u/utils"
  /\ formatDestinationForDisplay "/home/u" "/home/u/utils" = "~/utils"
  /\ formatDestinationForDisplay "/home/u" (resolvePath "/home/u" "~/utils")
     = "~/utils"
  /\ resolvePath "/home/u" (formatDestinationForDisplay "/home/u" "/home/u/utils")
     = "/home/u/utils".
Proof.
  apply (resolve_format_inverse_normal ["home"; "u"] ["utils"] false);
    [discriminate | reflexivity | reflexivity].
Defined.

(** ** The workflow monad *)

Section WorkflowFacts.

Context {World : Type} (host : Host World).

Local Open Scope list_scope.

Lemma bind_prepend {A B : Type} (m : M World A) (k : A -> M World B)
    (w w1 : World) (a : A) (t1 : list Event) :
  m w = (a, w1, t1) -> bind m k w = prepend t1 (k a w1).
Proof.
  intros Hm. unfold bind, prepend. rewrite Hm.
  now destruct (k a w1) as [[b w2] t2].
Qed.

Lemma prepend_prepend {A : Type} (t1 t2 : list Event)
    (r : A * World * list Event) :
  prepend t1 (prepend t2 r) = prepend (t1 ++ t2) r.
Proof. destruct r as [[a w] t]. simpl. now rewrite app_assoc. Qed.

Lemma prepend_nil {A : Type} (r : A * World * list Event) : prepend [] r = r.
Proof. now destruct r as [[a w] t]. Qed.

(** ** Host calls and the single-item copy *)

Lemma targetExists_found (uri : Uri) (w w' : World) (ty : FileType) :
  fs_stat host uri w = (Returned ty, w') ->
  targetExists host uri w = (true, w', [EStat uri (Returned ty)]).
Proof.
  intros H. unfold targetExists, bind, stat, ret. now rewrite H.
Qed.

Lemma targetExists_absent (uri : Uri) (w w' : World) (reason : string) :
  fs_stat host uri w = (Threw reason, w') ->
  targetExists host uri w = (false, w', [EStat uri (Threw reason)]).
Proof.
  intros H. unfold targetExists, bind, stat, ret. now rewrite H.
Qed.

Lemma copyOrReport_returned (source target : Uri) (fileName : string)
    (w w' : World) (v : unit) :
  fs_copy host source target true w = (Returned v, w') ->
  copyOrReport host source target fileName w
  = (success, w', [ECopy source target true (Returned v)]).
Proof.
  intros H. unfold copyOrReport, bind, copy, ret. now rewrite H.
Qed.

Lemma copyOrReport_threw (source target : Uri) (fileName : string)
    (w w' : World) (reason : string) :
  fs_copy host source target true w = (Threw reason, w') ->
  copyOrReport host source target fileName w
  = (skipped, w',
     [ECopy source target true (Threw reason);
      EErrorMessage (copyFailedMessage fileName reason)]).
Proof.
  intros H.
  unfold copyOrReport, bind, copy, showErrorMessage, emit, ret.
  now rewrite H.
Qed.

Lemma promptOverwrite_run (fileName destPath : string) (w w' : World)
    (picked : option string) :
  window_showWarningModal host (promptMessage fileName destPath)
    overwriteItems w = (picked, w') ->
  promptOverwrite host fileName destPath w
  = (actionOf picked, w',
     [EWarningModal (promptMessage fileName destPath) overwriteItems picked]).
Proof.
  intros H. unfold promptOverwrite, bind, showWarningModal, ret.
  rewrite H. destruct picked as [label|]; [|reflexivity].
  simpl. destruct (String.eqb label "Overwrite"); [reflexivity|].
  now destruct (String.eqb label "Skip").
Qed.

Lemma targetExists_trace (uri : Uri) (w w' : World) (b : bool)
    (t : list Event) :
  targetExists host uri w = (b, w', t) -> exists r, t = [EStat uri r].
Proof.
  unfold targetExists, bind, stat, ret.
  destruct (fs_stat host uri w) as [[ty|reason] w1];
    intros H; injection H as _ _ <-; eexists; reflexivity.
Qed.

Lemma promptOverwrite_trace (fileName destPath : string) (w w' : World)
    (a : OverwriteAction) (t : list Event) :
  promptOverwrite host fileName destPath w = (a, w', t) ->
  exists picked,
    t = [EWarningModal (promptMessage fileName destPath) overwriteItems picked]
    /\ a = actionOf picked.
Proof.
  destruct (window_showWarningModal host (promptMessage fileName destPath)
              overwriteItems w) as [picked w1] eqn:E.
  rewrite (promptOverwrite_run _ _ _ _ _ E).
  intros H. injection H as <- _ <-. now exists picked.
Qed.

(** The loop, one item at a time. *)
Lemma copyItems_step (destUri uri : Uri) (rest : list Uri) (c k : nat)
    (w w1 : World) (r : CopyResult) (t1 : list Event) :
  copySingleItem host uri destUri w = (r, w1, t1) ->
  copyItems host destUri (uri :: rest) c k w
  = match r with
    | success => prepend t1 (copyItems host destUri rest (S c) k w1)
    | skipped => prepend t1 (copyItems host destUri rest c (S k) w1)
    | cancelled =>
        (None, w1, t1 ++ [EInformationMessage (cancelledMessage c k)])
    end.
Proof.
  intros H. simpl. rewrite (bind_prepend _ _ _ _ _ _ H).
  destruct r; reflexivity.
Qed.

Lemma copyItems_app (destUri : Uri) (pre post : list Uri) :
  forall (c k c' k' : nat) (w w1 : World) (t1 : list Event),
    copyItems host destUri pre c k w = (Some (c', k'), w1, t1) ->
    copyItems host destUri (pre ++ post) c k w
    = prepend t1 (copyItems host destUri post c' k' w1).
Proof.
  induction pre as [|uri pre IH]; intros c k c' k' w w1 t1 H.
  - simpl in H. unfold ret in H. injection H as <- <- <- <-.
    simpl. now rewrite prepend_nil.
  - simpl app.
    destruct (copySingleItem host uri destUri w) as [[r w0] t0] eqn:E.
    rewrite (copyItems_step _ _ pre _ _ _ _ _ _ E) in H.
    rewrite (copyItems_step _ _ (pre ++ post) _ _ _ _ _ _ E).
    destruct r.
    + destruct (copyItems host destUri pre (S c) k w0) as [[x w2] t2] eqn:E2.
      simpl in H. injection H as -> <- <-.
      rewrite (IH _ _ _ _ _ _ _ E2). now rewrite prepend_prepend.
    + destruct (copyItems host destUri pre c (S k) w0) as [[x w2] t2] eqn:E2.
      simpl in H. injection H as -> <- <-.
      rewrite (IH _ _ _ _ _ _ _ E2). now rewrite prepend_prepend.
    + discriminate.
Qed.

Lemma copyOrReport_cases (source target : Uri) (fileName : string) (w : World) :
  (exists v w',
      fs_copy host source target true w = (Returned v, w')
      /\ copyOrReport host source target fileName w
         = (success, w', [ECopy source target true (Returned v)]))
  \/ (exists reason w',
         fs_copy host source target true w = (Threw reason, w')
         /\ copyOrReport host source target fileName w
            = (skipped, w',
               [ECopy source target true (Threw reason);
                EErrorMessage (copyFailedMessage fileName reason)])).
Proof.
  destruct (fs_copy host source target true w) as [[v|reason] w'] eqn:E.
  - left. exists v, w'. split; [reflexivity | now apply copyOrReport_returned].
  - right. exists reason, w'. split; [reflexivity | now apply copyOrReport_threw].
Qed.

Lemma copySingleItem_path (sourceUri destUri : Uri) (w w' : World)
    (r : CopyResult) (t : list Event) :
  copySingleItem host sourceUri destUri w = (r, w', t) ->
  ItemPath host sourceUri destUri w r w' t.
Proof.
  unfold copySingleItem.
  set (fileName := NodePath.basename (fsPath sourceUri)).
  set (target := Uri_joinPath destUri fileName).
  destruct (fs_stat host target w) as [[ty|reason] w1] eqn:Es.
  - rewrite (bind_prepend _ _ _ _ _ _ (targetExists_found _ _ _ _ Es)).
    destruct (window_showWarningModal host
                (promptMessage fileName (fsPath destUri)) overwriteItems w1)
      as [picked w2] eqn:Ep.
    rewrite (bind_prepend _ _ _ _ _ _ (promptOverwrite_run _ _ _ _ _ Ep)).
    rewrite prepend_prepend.
    intros H.
    destruct (actionOf picked) eqn:Ea.
    + destruct (copyOrReport host sourceUri target fileName w2)
        as [[r0 w3] t0] eqn:Ec.
      simpl in H. injection H as <- <- <-.
      eapply PathPrompted; eauto. fold fileName target. now rewrite Ea.
    + simpl in H. unfold ret in H. simpl in H. injection H as <- <- <-.
      eapply PathPrompted; eauto. now rewrite Ea.
    + simpl in H. unfold ret in H. simpl in H. injection H as <- <- <-.
      eapply PathPrompted; eauto. now rewrite Ea.
  - rewrite (bind_prepend _ _ _ _ _ _ (targetExists_absent _ _ _ _ Es)).
    intros H.
    destruct (copyOrReport host sourceUri target fileName w1)
      as [[r0 w3] t0] eqn:Ec.
    simpl in H. injection H as <- <- <-.
    eapply PathFresh; eauto.
Qed.

Lemma copyItems_counts (destUri : Uri) (uris : list Uri) :
  forall (c k c' k' : nat) (w w' : World) (t : list Event),
    copyItems host destUri uris c k w = (Some (c', k'), w', t) ->
    c' = c + count isSuccess (itemOutcomes host destUri uris w)
    /\ k' = k + count isSkipped (itemOutcomes host destUri uris w)
    /\ c' + k' = c + k + List.length uris.
Proof.
  unfold count.
  induction uris as [|uri rest IH]; intros c k c' k' w w' t H.
  - simpl in H. unfold ret in H. injection H as <- <- <- <-. simpl. lia.
  - destruct (copySingleItem host uri destUri w) as [[r w1] t1] eqn:E.
    rewrite (copyItems_step _ _ _ _ _ _ _ _ _ E) in H.
    simpl itemOutcomes. rewrite E.
    destruct r.
    + destruct (copyItems host destUri rest (S c) k w1) as [[x w2] t2] eqn:E2.
      simpl in H. injection H as -> <- <-.
      destruct (IH _ _ _ _ _ _ _ E2) as (Hc & Hk & Hs). simpl. lia.
    + destruct (copyItems host destUri rest c (S k) w1) as [[x w2] t2] eqn:E2.
      simpl in H. injection H as -> <- <-.
      destruct (IH _ _ _ _ _ _ _ E2) as (Hc & Hk & Hs). simpl. lia.
    + discriminate.
Qed.

(** [copyToDestination] once the destination is known and present. *)
Lemma copyToDestination_run (uris : list Uri) (destUri : Uri)
    (w0 w1 w2 w3 : World) (e1 e2 e3 : list Event)
    (counts : option (nat * nat)) :
  getDestinationUri host w0 = (Some destUri, w1, e1) ->
  ensureDestinationDirectory host destUri w1 = (true, w2, e2) ->
  copyItems host destUri uris 0 0 w2 = (counts, w3, e3) ->
  copyToDestination host uris w0
  = prepend (e1 ++ e2 ++ e3)
      (match counts with
       | Some (copiedCount, skippedCount) =>
           showCompletion
             (formatDestinationForDisplay (os_homedir host) (fsPath destUri))
             copiedCount skippedCount w3
       | None => (tt, w3, [])
       end).
Proof.
  intros Hd He Hc. unfold copyToDestination.
  rewrite (bind_prepend _ _ _ _ _ _ Hd), (bind_prepend _ _ _ _ _ _ He).
  change (negb true) with false. cbv iota.
  rewrite (bind_prepend _ _ _ _ _ _ Hc), !prepend_prepend.
  rewrite <- app_assoc.
  destruct counts as [[copiedCount skippedCount]|]; reflexivity.
Qed.

(** ** Batch Orchestrator: cancellation *)

(** C2: when the items before item [k] run without cancellation, leaving the
    counters at [c] copied and [s] skipped, and the conflict prompt for item
    [k] answers cancel, the whole run of [copyToDestination] ends there: its
    trace is the trace up to and including that prompt followed by the one
    message [Cancelled. Copied c item(s), skipped s.], whatever items come
    after; no existence check, prompt or copy is made for them, and item [k]
    is in neither count. *)
Theorem cancel_stops_batch (pre post : list Uri) (item destUri : Uri)
    (w0 w1 w2 w3 w4 w5 : World) (e1 e2 e3 e4 e5 : list Event) (c s : nat) :
  getDestinationUri host w0 = (Some destUri, w1, e1) ->
  ensureDestinationDirectory host destUri w1 = (true, w2, e2) ->
  copyItems host destUri pre 0 0 w2 = (Some (c, s), w3, e3) ->
  targetExists host
    (Uri_joinPath destUri (NodePath.basename (fsPath item))) w3
  = (true, w4, e4) ->
  promptOverwrite host (NodePath.basename (fsPath item)) (fsPath destUri) w4
  = (cancel, w5, e5) ->
  copyToDestination host (pre ++ item :: post) w0
  = (tt, w5,
     e1 ++ e2 ++ e3 ++ e4 ++ e5
       ++ [EInformationMessage
             ("Cancelled. Copied " ++ JsString.ofNat c
                ++ " item(s), skipped " ++ JsString.ofNat s ++ ".")%string])
  /\ existsb isCopy (e4 ++ e5) = false
  /\ c = count isSuccess (itemOutcomes host destUri pre w2)
  /\ s = count isSkipped (itemOutcomes host destUri pre w2)
  /\ c + s = List.length pre.
Proof.
  intros Hd He Hpre Hx Hp.
  assert (Hitem : copySingleItem host item destUri w3
                  = (cancelled, w5, e4 ++ e5)).
  { unfold copySingleItem.
    rewrite (bind_prepend _ _ _ _ _ _ Hx), (bind_prepend _ _ _ _ _ _ Hp).
    simpl. now rewrite app_nil_r. }
  split.
  - rewrite (copyToDestination_run (pre ++ item :: post) destUri
               w0 w1 w2 w5 e1 e2
               (e3 ++ e4 ++ e5
                  ++ [EInformationMessage (cancelledMessage c s)])
               None Hd He).
    + simpl. now rewrite app_nil_r.
    + rewrite (copyItems_app _ _ _ _ _ _ _ _ _ _ Hpre).
      rewrite (copyItems_step _ _ _ _ _ _ _ _ _ Hitem).
      simpl. now rewrite <- app_assoc.
  - split.
    + destruct (targetExists_trace _ _ _ _ _ Hx) as (r4 & ->).
      destruct (promptOverwrite_trace _ _ _ _ _ _ Hp) as (picked & -> & _).
      reflexivity.
    + destruct (copyItems_counts _ _ _ _ _ _ _ _ _ Hpre) as (Hc & Hk & Hs).
      simpl in Hc, Hk, Hs. repeat split; assumption.
Qed.

(** ** Item Copier *)

Lemma copySingleItem_clean (sourceUri destUri : Uri) (w w' : World)
    (r : CopyResult) (t : list Event) :
  copySingleItem host sourceUri destUri w = (r, w', t) ->
  existsb isConflict t = false -> existsb isFailedCopy t = false ->
  r = success.
Proof.
  intros H Hconf Hfail.
  destruct (copySingleItem_path _ _ _ _ _ _ H)
    as [reason w1 w2 r t Hs Hc | ty picked w1 w2 w3 r t Hs Hw Ha].
  - destruct (copyOrReport_cases sourceUri
                (Uri_joinPath destUri (NodePath.basename (fsPath sourceUri)))
                (NodePath.basename (fsPath sourceUri)) w1)
      as [(v & wc & _ & Hr)|(why & wc & _ & Hr)];
      rewrite Hr in Hc; injection Hc as <- <- <-;
      [reflexivity | discriminate Hfail].
  - discriminate Hconf.
Qed.

Lemma copyItems_clean (destUri : Uri) (uris : list Uri) :
  forall (c k : nat) (w w' : World) (counts : option (nat * nat))
         (t : list Event),
    copyItems host destUri uris c k w = (counts, w', t) ->
    existsb isConflict t = false -> existsb isFailedCopy t = false ->
    counts = Some (c + List.length uris, k)
    /\ itemOutcomes host destUri uris w = repeat success (List.length uris).
Proof.
  induction uris as [|uri rest IH]; intros c k w w' counts t H Hconf Hfail.
  - simpl in H. unfold ret in H. injection H as <- _ _.
    simpl. now rewrite Nat.add_0_r.
  - destruct (copySingleItem host uri destUri w) as [[r w1] t1] eqn:E.
    rewrite (copyItems_step _ _ _ _ _ _ _ _ _ E) in H.
    assert (Ht : exists t2, t = t1 ++ t2).
    { destruct r.
      - destruct (copyItems host destUri rest (S c) k w1) as [[x wx] tx].
        simpl in H. injection H as _ _ <-. now eexists.
      - destruct (copyItems host destUri rest c (S k) w1) as [[x wx] tx].
        simpl in H. injection H as _ _ <-. now eexists.
      - injection H as _ _ <-. now eexists. }
    destruct Ht as (t2 & ->).
    rewrite existsb_app in Hconf, Hfail.
    apply orb_false_iff in Hconf as [Hconf1 Hconf2].
    apply orb_false_iff in Hfail as [Hfail1 Hfail2].
    pose proof (copySingleItem_clean _ _ _ _ _ _ E Hconf1 Hfail1) as ->.
    destruct (copyItems host destUri rest (S c) k w1) as [[x wx] tx] eqn:E2.
    simpl in H. injection H as <- <- Ht. apply app_inv_head in Ht. subst tx.
    destruct (IH _ _ _ _ _ _ E2 Hconf2 Hfail2) as [-> Hout].
    simpl itemOutcomes. rewrite E, Hout. simpl.
    split; [f_equal; f_equal; lia | reflexivity].
Qed.

(** C3: for a non-empty source list, with a destination obtained and
    ensured, if no existence check of the loop finds a target and no copy
    call of the loop throws, then [copySingleItem] returns success for every
    item, the loop ends with the copied count equal to the length of the
    list and the skipped count zero, and the summary shown is
    [Copied n item(s) to dest.] with that count. *)
Theorem clean_batch_all_success (uris : list Uri) (destUri : Uri)
    (w0 w1 w2 w3 : World) (e1 e2 e3 : list Event)
    (counts : option (nat * nat)) :
  uris <> [] ->
  getDestinationUri host w0 = (Some destUri, w1, e1) ->
  ensureDestinationDirectory host destUri w1 = (true, w2, e2) ->
  copyItems host destUri uris 0 0 w2 = (counts, w3, e3) ->
  existsb isConflict e3 = false ->
  existsb isFailedCopy e3 = false ->
  itemOutcomes host destUri uris w2 = repeat success (List.length uris)
  /\ counts = Some (List.length uris, 0)
  /\ copyToDestination host uris w0
     = (tt, w3,
        e1 ++ e2 ++ e3
          ++ [EInformationMessage
                ("Copied " ++ JsString.ofNat (List.length uris)
                   ++ " item(s) to "
                   ++ formatDestinationForDisplay (os_homedir host)
                        (fsPath destUri)
                   ++ ".")%string]).
Proof.
  intros Hne Hd He Hc Hconf Hfail.
  destruct (copyItems_clean _ _ _ _ _ _ _ _ Hc Hconf Hfail) as [-> Hout].
  simpl in *. repeat split; [exact Hout|].
  rewrite (copyToDestination_run _ _ _ _ _ _ _ _ _ _ Hd He Hc).
  unfold showCompletion.
  destruct uris as [|u rest]; [now elim Hne|].
  simpl. now rewrite <- !app_assoc.
Qed.

(** C4: whenever the copy call made by [copySingleItem] throws, whatever the
    reason and the item, the result is skipped, the run shows exactly one
    error message and it is [Failed to copy "fileName": reason], and the
    loop goes on with the remaining items with the skipped counter
    incremented. *)
Theorem copy_failure_is_skipped (sourceUri destUri : Uri) (w w' : World)
    (r : CopyResult) (t : list Event) (source target : Uri) (flag : bool)
    (reason : string) :
  copySingleItem host sourceUri destUri w = (r, w', t) ->
  In (ECopy source target flag (Threw reason)) t ->
  r = skipped
  /\ filter isErrorMessage t
     = [EErrorMessage
          ("Failed to copy " ++ dquote
             ++ NodePath.basename (fsPath sourceUri) ++ dquote
             ++ ": " ++ reason)%string]
  /\ count isCopy t = 1
  /\ forall (rest : list Uri) (c k : nat),
       copyItems host destUri (sourceUri :: rest) c k w
       = prepend t (copyItems host destUri rest c (S k) w').
Proof.
  intros H Hin.
  assert (Hcore : r = skipped
                  /\ filter isErrorMessage t
                     = [EErrorMessage
                          (copyFailedMessage
                             (NodePath.basename (fsPath sourceUri)) reason)]
                  /\ count isCopy t = 1).
  { destruct (copySingleItem_path _ _ _ _ _ _ H)
      as [why w1 w2 r t Hs Hc | ty picked w1 w2 w3 r t Hs Hw Ha].
    - destruct (copyOrReport_cases sourceUri
                  (Uri_joinPath destUri (NodePath.basename (fsPath sourceUri)))
                  (NodePath.basename (fsPath sourceUri)) w1)
        as [(v & wc & _ & Hr)|(why' & wc & _ & Hr)];
        rewrite Hr in Hc; injection Hc as <- <- <-; simpl in Hin.
      + destruct Hin as [Hin|[Hin|[]]]; discriminate Hin.
      + destruct Hin as [Hin|[Hin|[Hin|[]]]]; try discriminate Hin.
        injection Hin as _ _ _ ->. repeat split.
    - destruct (actionOf picked).
      + destruct (copyOrReport_cases sourceUri
                  (Uri_joinPath destUri (NodePath.basename (fsPath sourceUri)))
                  (NodePath.basename (fsPath sourceUri)) w2)
        as [(v & wc & _ & Hr)|(why' & wc & _ & Hr)];
        rewrite Hr in Ha; injection Ha as <- <- <-; simpl in Hin.
        * destruct Hin as [Hin|[Hin|[Hin|[]]]]; discriminate Hin.
        * destruct Hin as [Hin|[Hin|[Hin|[Hin|[]]]]]; try discriminate Hin.
          injection Hin as _ _ _ ->. repeat split.
      + injection Ha as -> -> ->. simpl in Hin.
        destruct Hin as [Hin|[Hin|[]]]; discriminate Hin.
      + injection Ha as -> -> ->. simpl in Hin.
        destruct Hin as [Hin|[Hin|[]]]; discriminate Hin. }
  destruct Hcore as (-> & Hmsg & Hcount).
  repeat split; [exact Hmsg | exact Hcount|].
  intros rest c k. now rewrite (copyItems_step _ _ _ _ _ _ _ _ _ H).
Qed.

(** C7: for an item whose target already exists, when the user answers the
    conflict prompt with Skip, [copySingleItem] returns skipped after the
    existence check and the prompt alone: no copy or other mutating call is
    made for the item, and in the loop the item increments the skipped
    counter and leaves the copied counter as it was. *)
Theorem skip_leaves_target_untouched (sourceUri destUri : Uri)
    (w w1 w2 : World) (ty : FileType) :
  let fileName := NodePath.basename (fsPath sourceUri) in
  let target := Uri_joinPath destUri fileName in
  let message :=
    (dquote ++ fileName ++ dquote ++ " already exists in " ++ fsPath destUri
       ++ ". What would you like to do?")%string in
  let items := ["Overwrite"; "Skip"; "Cancel"]%string in
  fs_stat host target w = (Returned ty, w1) ->
  window_showWarningModal host message items w1 = (Some "Skip"%string, w2) ->
  copySingleItem host sourceUri destUri w
  = (skipped, w2,
     [EStat target (Returned ty);
      EWarningModal message items (Some "Skip"%string)])
  /\ existsb isMutation
       [EStat target (Returned ty);
        EWarningModal message items (Some "Skip"%string)] = false
  /\ forall (rest : list Uri) (c k : nat),
       copyItems host destUri (sourceUri :: rest) c k w
       = prepend
           [EStat target (Returned ty);
            EWarningModal message items (Some "Skip"%string)]
           (copyItems host destUri rest c (S k) w2).
Proof.
  intros fileName target message items Hs Hw.
  assert (H : copySingleItem host sourceUri destUri w
              = (skipped, w2,
                 [EStat target (Returned ty);
                  EWarningModal message items (Some "Skip"%string)])).
  { unfold copySingleItem. fold fileName. fold target.
    rewrite (bind_prepend _ _ _ _ _ _ (targetExists_found _ _ _ _ Hs)).
    rewrite (bind_prepend _ _ _ _ _ _
               (promptOverwrite_run fileName (fsPath destUri) _ _ _ Hw)).
    reflexivity. }
  repeat split; [exact H|].
  intros rest c k. now rewrite (copyItems_step _ _ _ _ _ _ _ _ _ H).
Qed.

(** ** Destination Provider and Directory Ensurer *)

(** C5: when the configured destination is the empty string and the folder
    picker is dismissed (it yields nothing, or an empty selection),
    [getDestinationUri] returns none and [copyToDestination] returns at
    once: its whole trace is the picker call, so it creates no directory,
    copies nothing and shows no message of any kind. *)
Theorem dismissed_picker_is_silent (uris : list Uri) (w w' : World)
    (selected : option (list Uri)) :
  configuredPathIn host w = EmptyString ->
  window_showOpenDialog host selectDestinationOptions w = (selected, w') ->
  selected = None \/ selected = Some [] ->
  getDestinationUri host w
  = (None, w', [EShowOpenDialog selectDestinationOptions selected])
  /\ copyToDestination host uris w
     = (tt, w', [EShowOpenDialog selectDestinationOptions selected])
  /\ existsb isMutation (snd (copyToDestination host uris w)) = false
  /\ existsb isMessage (snd (copyToDestination host uris w)) = false.
Proof.
  intros Hcfg Hdlg Hsel.
  assert (Hd : getDestinationUri host w
               = (None, w', [EShowOpenDialog selectDestinationOptions selected])).
  { unfold getDestinationUri, getConfiguredPath, bind at 1.
    rewrite Hcfg. change (negb (String.eqb EmptyString EmptyString)) with false.
    cbv iota. unfold bind, showOpenDialog, ret. rewrite Hdlg.
    destruct Hsel as [-> | ->]; reflexivity. }
  assert (Hc : copyToDestination host uris w
               = (tt, w', [EShowOpenDialog selectDestinationOptions selected])).
  { unfold copyToDestination. rewrite (bind_prepend _ _ _ _ _ _ Hd).
    reflexivity. }
  rewrite Hc. repeat split; assumption.
Qed.

(** C8: [ensureDestinationDirectory] has exactly three ways to end.  If the
    metadata of the destination can be read it returns true with no
    creation attempt; if the read fails and the creation succeeds it returns
    true; if the read fails and the creation throws it returns false after
    the one message [Failed to create destination directory: reason].  It
    returns false exactly when a creation attempt threw. *)
Theorem ensureDestinationDirectory_outcomes (destUri : Uri) (w : World) :
  (forall (ty : FileType) (w1 : World),
      fs_stat host destUri w = (Returned ty, w1) ->
      ensureDestinationDirectory host destUri w
      = (true, w1, [EStat destUri (Returned ty)]))
  /\ (forall (absent : string) (w1 w2 : World) (v : unit),
         fs_stat host destUri w = (Threw absent, w1) ->
         fs_createDirectory host destUri w1 = (Returned v, w2) ->
         ensureDestinationDirectory host destUri w
         = (true, w2,
            [EStat destUri (Threw absent);
             ECreateDirectory destUri (Returned v)]))
  /\ (forall (absent reason : string) (w1 w2 : World),
         fs_stat host destUri w = (Threw absent, w1) ->
         fs_createDirectory host destUri w1 = (Threw reason, w2) ->
         ensureDestinationDirectory host destUri w
         = (false, w2,
            [EStat destUri (Threw absent);
             ECreateDirectory destUri (Threw reason);
             EErrorMessage
               ("Failed to create destination directory: " ++ reason)%string]))
  /\ (forall (b : bool) (w' : World) (t : list Event),
         ensureDestinationDirectory host destUri w = (b, w', t) ->
         (b = false <->
          exists reason, In (ECreateDirectory destUri (Threw reason)) t)).
Proof.
  unfold ensureDestinationDirectory, bind, stat, createDirectory,
    showErrorMessage, emit, ret.
  split; [|split; [|split]].
  - intros ty w1 Hs. now rewrite Hs.
  - intros absent w1 w2 v Hs Hc. now rewrite Hs, Hc.
  - intros absent reason w1 w2 Hs Hc. now rewrite Hs, Hc.
  - intros b w' t.
    destruct (fs_stat host destUri w) as [[ty|absent] w1].
    + intros H. injection H as <- _ <-. split; [discriminate|].
      intros (reason & [Hin|[]]). discriminate Hin.
    + destruct (fs_createDirectory host destUri w1) as [[v|reason] w2];
        intros H; injection H as <- _ <-.
      * split; [discriminate|].
        intros (reason & [Hin|[Hin|[]]]); discriminate Hin.
      * split; [|reflexivity]. intros _. exists reason. simpl. auto.
Qed.

(** ** Batch Orchestrator: completion *)

(** C6: after a full pass with no cancellation, leaving [c] copied and [s]
    skipped, the run ends with: [Copied c item(s) to dest.] when [c] is
    positive and [s] is zero; the same with [ Skipped s.] appended when
    both are positive; [All s item(s) were skipped.] when [c] is zero and
    [s] positive; and no message when both are zero, which happens exactly
    for the empty source list. *)
Theorem completion_message (uris : list Uri) (destUri : Uri)
    (w0 w1 w2 w3 : World) (e1 e2 e3 : list Event) (c s : nat) :
  getDestinationUri host w0 = (Some destUri, w1, e1) ->
  ensureDestinationDirectory host destUri w1 = (true, w2, e2) ->
  copyItems host destUri uris 0 0 w2 = (Some (c, s), w3, e3) ->
  let display :=
    formatDestinationForDisplay (os_homedir host) (fsPath destUri) in
  exists final,
    copyToDestination host uris w0 = (tt, w3, e1 ++ e2 ++ e3 ++ final)
    /\ (0 < c -> s = 0 ->
        final = [EInformationMessage
                   ("Copied " ++ JsString.ofNat c ++ " item(s) to "
                      ++ display ++ ".")%string])
    /\ (0 < c -> 0 < s ->
        final = [EInformationMessage
                   ("Copied " ++ JsString.ofNat c ++ " item(s) to "
                      ++ display ++ ". Skipped " ++ JsString.ofNat s
                      ++ ".")%string])
    /\ (c = 0 -> 0 < s ->
        final = [EInformationMessage
                   ("All " ++ JsString.ofNat s
                      ++ " item(s) were skipped.")%string])
    /\ (c = 0 -> s = 0 -> final = [])
    /\ (c = 0 /\ s = 0 <-> uris = []).
Proof.
  intros Hd He Hc display.
  exists (snd (showCompletion display c s w3)).
  rewrite (copyToDestination_run _ _ _ _ _ _ _ _ _ _ Hd He Hc).
  fold display. unfold showCompletion, showInformationMessage, emit, ret.
  destruct (copyItems_counts _ _ _ _ _ _ _ _ _ Hc) as (_ & _ & Hlen).
  simpl in Hlen.
  split; [|repeat split].
  - destruct (Nat.ltb 0 c), (Nat.ltb 0 s); simpl;
      now rewrite <- !app_assoc.
  - intros Hpos ->. apply Nat.ltb_lt in Hpos. now rewrite Hpos.
  - intros Hc0 Hs0. apply Nat.ltb_lt in Hc0, Hs0. now rewrite Hc0, Hs0.
  - intros -> Hs0. apply Nat.ltb_lt in Hs0. now rewrite Hs0.
  - intros -> ->. reflexivity.
  - intros [-> ->]. destruct uris; [reflexivity | discriminate Hlen].
  - subst uris. simpl in Hlen. lia.
  - subst uris. simpl in Hlen. lia.
Qed.

(** ** Trace invariants and the command handler *)

Lemma emitsOnly_ret {A : Type} (P : Event -> bool) (a : A) :
  emitsOnly P (ret a : M World A).
Proof. intros w. reflexivity. Qed.

Lemma emitsOnly_bind {A B : Type} (P : Event -> bool) (m : M World A)
    (k : A -> M World B) :
  emitsOnly P m -> (forall a, emitsOnly P (k a)) -> emitsOnly P (bind m k).
Proof.
  intros Hm Hk w. unfold bind.
  specialize (Hm w). destruct (m w) as [[a w1] t1].
  specialize (Hk a w1). destruct (k a w1) as [[b w2] t2].
  simpl in *. now rewrite forallb_app, Hm, Hk.
Qed.

Lemma emitsOnly_emit (P : Event -> bool) (e : Event) :
  P e = true -> emitsOnly P (emit e : M World unit).
Proof. intros H w. simpl. now rewrite H. Qed.

Lemma copySingleItem_quiet (sourceUri destUri : Uri) :
  emitsOnly notPlainWarning (copySingleItem host sourceUri destUri).
Proof.
  assert (Hcopy : forall s t f,
             emitsOnly notPlainWarning (copyOrReport host s t f)).
  { intros s t f. apply emitsOnly_bind.
    - intros w. unfold copy. now destruct (fs_copy host s t true w).
    - intros [v|reason]; [apply emitsOnly_ret|].
      apply emitsOnly_bind; [now apply emitsOnly_emit | intros; apply emitsOnly_ret]. }
  apply emitsOnly_bind.
  - apply emitsOnly_bind.
    + intros w. unfold stat. now destruct (fs_stat host _ w).
    + intros [ty|reason]; apply emitsOnly_ret.
  - intros [|]; [|apply Hcopy].
    apply emitsOnly_bind.
    + apply emitsOnly_bind.
      * intros w. unfold showWarningModal.
        now destruct (window_showWarningModal host _ _ w).
      * intros [label|]; [|apply emitsOnly_ret].
        destruct (String.eqb label "Overwrite"); [apply emitsOnly_ret|].
        destruct (String.eqb label "Skip"); apply emitsOnly_ret.
    + intros [| |]; [apply Hcopy | apply emitsOnly_ret | apply emitsOnly_ret].
Qed.

Lemma copyItems_quiet (destUri : Uri) (uris : list Uri) :
  forall c k, emitsOnly notPlainWarning (copyItems host destUri uris c k).
Proof.
  induction uris as [|uri rest IH]; intros c k; simpl.
  - apply emitsOnly_ret.
  - apply emitsOnly_bind; [apply copySingleItem_quiet|].
    intros [| |]; [apply IH | apply IH |].
    apply emitsOnly_bind; [now apply emitsOnly_emit | intros; apply emitsOnly_ret].
Qed.

Lemma copyToDestination_quiet (uris : list Uri) :
  emitsOnly notPlainWarning (copyToDestination host uris).
Proof.
  apply emitsOnly_bind.
  - apply emitsOnly_bind; [intros w; reflexivity|].
    intros configured.
    destruct (negb (String.eqb configured EmptyString)); [apply emitsOnly_ret|].
    apply emitsOnly_bind.
    + intros w. unfold showOpenDialog.
      now destruct (window_showOpenDialog host _ w).
    + intros [[|first others]|]; apply emitsOnly_ret.
  - intros [destUri|]; [|apply emitsOnly_ret].
    apply emitsOnly_bind.
    + apply emitsOnly_bind.
      * intros w. unfold stat. now destruct (fs_stat host _ w).
      * intros [ty|absent]; [apply emitsOnly_ret|].
        apply emitsOnly_bind.
        -- intros w. unfold createDirectory.
           now destruct (fs_createDirectory host _ w).
        -- intros [v|reason]; [apply emitsOnly_ret|].
           apply emitsOnly_bind;
             [now apply emitsOnly_emit | intros; apply emitsOnly_ret].
    + intros [|]; simpl negb; cbv iota; [|apply emitsOnly_ret].
      apply emitsOnly_bind; [apply copyItems_quiet|].
      intros [[c k]|]; [|apply emitsOnly_ret].
      unfold showCompletion.
      destruct (Nat.ltb 0 c); [now apply emitsOnly_emit|].
      destruct (Nat.ltb 0 k); [now apply emitsOnly_emit | apply emitsOnly_ret].
Qed.

(** C10: in the command handler the targets are the multi-selection list
    whenever it is defined, whatever the single uri is, and otherwise the
    single uri alone (or nothing).  When the targets are empty the handler
    shows the warning [No files or folders selected.] and does nothing
    else; when they are not, it runs [copyToDestination] on them.  The
    warning is in the trace exactly when the targets are empty, which
    includes a defined empty list given together with a single uri. *)
Theorem handler_target_precedence (uri : option Uri)
    (uris : option (list Uri)) (w : World) :
  (forall all, uris = Some all -> selectTargets uri uris = all)
  /\ (uris = None ->
      selectTargets uri uris
      = match uri with Some one => [one] | None => [] end)
  /\ (selectTargets uri uris = [] ->
      commandHandler host uri uris w
      = (tt, w, [EWarningMessage "No files or folders selected."]))
  /\ (selectTargets uri uris <> [] ->
      commandHandler host uri uris w
      = copyToDestination host (selectTargets uri uris) w)
  /\ (In (EWarningMessage "No files or folders selected.")
         (snd (commandHandler host uri uris w))
      <-> selectTargets uri uris = [])
  /\ (forall one all,
         commandHandler host (Some one) (Some all) w
         = commandHandler host None (Some all) w)
  /\ (forall one,
         commandHandler host (Some one) (Some []) w
         = (tt, w, [EWarningMessage "No files or folders selected."])).
Proof.
  assert (Hempty : selectTargets uri uris = [] ->
                   commandHandler host uri uris w
                   = (tt, w, [EWarningMessage "No files or folders selected."])).
  { intros E. unfold commandHandler. now rewrite E. }
  assert (Hrun : selectTargets uri uris <> [] ->
                 commandHandler host uri uris w
                 = copyToDestination host (selectTargets uri uris) w).
  { intros NE. unfold commandHandler.
    destruct (selectTargets uri uris); [now elim NE | reflexivity]. }
  split; [now intros all -> |].
  split; [now intros -> |].
  split; [exact Hempty|].
  split; [exact Hrun|].
  split; [|split; reflexivity].
  split.
  - intros Hin.
    destruct (selectTargets uri uris) as [|u rest] eqn:E; [reflexivity|].
    rewrite Hrun in Hin by discriminate.
    pose proof (copyToDestination_quiet (u :: rest) w) as Hq.
    rewrite forallb_forall in Hq. apply Hq in Hin. discriminate Hin.
  - intros E. rewrite (Hempty E). simpl. now left.
Qed.

End WorkflowFacts.

(** ** Worked runs on the concrete host *)

Import Examples.

Local Open Scope list_scope.

(** C9: [ensureDestinationDirectory] returns true as soon as [stat]
    succeeds, whatever the type of the entry found.  On a world where the
    configured destination [/home/u/notes] is a regular file it reports
    success with no creation attempt, and [copyToDestination] goes on to
    call the copy primitive with a target below that file. *)
Theorem ensure_accepts_regular_file :
  (forall (World : Type) (h : Host World) (destUri : Uri) (w w1 : World)
          (ty : FileType),
      fs_stat h destUri w = (Returned ty, w1) ->
      ensureDestinationDirectory h destUri w
      = (true, w1, [EStat destUri (Returned ty)]))
  /\ fs_stat host notes occupied = (Returned File, occupied)
  /\ ensureDestinationDirectory host notes occupied
     = (true, occupied, [EStat notes (Returned File)])
  /\ copyToDestination host [a_txt] occupied
     = (tt, occupied,
        [EStat notes (Returned File);
         EStat (Uri_file "/home/u/notes/a.txt") absent;
         ECopy a_txt (Uri_file "/home/u/notes/a.txt") true
           (Threw "FileNotADirectory (FileSystemError)");
         EErrorMessage
           (copyFailedMessage "a.txt" "FileNotADirectory (FileSystemError)");
         EInformationMessage "All 1 item(s) were skipped."]).
Proof.
  split; [|repeat split].
  intros World h destUri w w1 ty Hs.
  unfold ensureDestinationDirectory, bind, stat, ret. now rewrite Hs.
Qed.

(** Three sources, the second conflicts and the user cancels: the third is
    never looked at. *)
Lemma cancel_stops_batch_witness :
  copyToDestination host [a_txt; b_txt; c_txt] (conflicting (Some "Cancel"%string))
  = (tt,
     Sim.withEntries answered
       (Sim.file "/home/u/utils/a.txt" "A" :: Sim.entries answered),
     [EStat utils (Returned Directory);
      EStat (Uri_file "/home/u/utils/a.txt") absent;
      ECopy a_txt (Uri_file "/home/u/utils/a.txt") true (Returned tt);
      EStat (Uri_file "/home/u/utils/b.txt") (Returned File);
      EWarningModal (promptMessage "b.txt" "/home/u/utils") overwriteItems
        (Some "Cancel"%string);
      EInformationMessage "Cancelled. Copied 1 item(s), skipped 0."]).
Proof.
  exact (proj1 (cancel_stops_batch host [a_txt] [c_txt] b_txt utils
                  (conflicting (Some "Cancel"%string)) _ _ _ _ _ _ _ _ _ _ 1 0
                  eq_refl eq_refl eq_refl eq_refl eq_refl)).
Defined.

(** Two new files into [~/utils], which is created on the way. *)
Lemma clean_batch_all_success_witness :
  itemOutcomes host utils [a_txt; b_txt]
    (Sim.withEntries fresh (Sim.dir "/home/u/utils" :: sources))
  = [success; success]
  /\ copyToDestination host [a_txt; b_txt] fresh
     = (tt,
        Sim.withEntries fresh
          (Sim.file "/home/u/utils/b.txt" "B"
             :: Sim.file "/home/u/utils/a.txt" "A"
             :: Sim.dir "/home/u/utils" :: sources),
        [EStat utils absent;
         ECreateDirectory utils (Returned tt);
         EStat (Uri_file "/home/u/utils/a.txt") absent;
         ECopy a_txt (Uri_file "/home/u/utils/a.txt") true (Returned tt);
         EStat (Uri_file "/home/u/utils/b.txt") absent;
         ECopy b_txt (Uri_file "/home/u/utils/b.txt") true (Returned tt);
         EInformationMessage "Copied 2 item(s) to ~/utils."]).
Proof.
  pose proof (clean_batch_all_success host [a_txt; b_txt] utils fresh
                _ _ _ _ _ _ _
                ltac:(discriminate) eq_refl eq_refl eq_refl eq_refl eq_refl)
    as (Hout & _ & Hrun).
  split; [exact Hout | exact Hrun].
Defined.

(** A source that has vanished: the copy throws, the item is skipped and
    the loop goes on. *)
Lemma copy_failure_is_skipped_witness :
  copySingleItem host gone_txt utils fresh
  = (skipped, fresh,
     [EStat (Uri_file "/home/u/utils/gone.txt") absent;
      ECopy gone_txt (Uri_file "/home/u/utils/gone.txt") true
        (Threw "EntryNotFound (FileSystemError)");
      EErrorMessage
        (copyFailedMessage "gone.txt" "EntryNotFound (FileSystemError)")])
  /\ filter isErrorMessage (snd (copySingleItem host gone_txt utils fresh))
     = [EErrorMessage
          (copyFailedMessage "gone.txt" "EntryNotFound (FileSystemError)")]
  /\ copyItems host utils [gone_txt; a_txt] 0 0 fresh
     = prepend (snd (copySingleItem host gone_txt utils fresh))
         (copyItems host utils [a_txt] 0 1 fresh).
Proof.
  pose proof (copy_failure_is_skipped host gone_txt utils fresh fresh
                skipped _ gone_txt (Uri_file "/home/u/utils/gone.txt") true
                "EntryNotFound (FileSystemError)"
                eq_refl (or_intror (or_introl eq_refl)))
    as (_ & Hmsg & _ & Hloop).
  split; [reflexivity|].
  split; [exact Hmsg | exact (Hloop [a_txt] 0 0)].
Defined.

(** No setting, picker dismissed: nothing but the picker call. *)
Lemma dismissed_picker_is_silent_witness :
  copyToDestination host [a_txt; b_txt] unset
  = (tt, unsetDismissed, [EShowOpenDialog selectDestinationOptions None])
  /\ existsb isMutation (snd (copyToDestination host [a_txt; b_txt] unset))
     = false
  /\ existsb isMessage (snd (copyToDestination host [a_txt; b_txt] unset))
     = false.
Proof.
  pose proof (dismissed_picker_is_silent host [a_txt; b_txt] unset
                unsetDismissed None eq_refl eq_refl (or_introl eq_refl))
    as (_ & Hrun & Hmut & Hmsg).
  split; [exact Hrun | split; [exact Hmut | exact Hmsg]].
Defined.

(** The older [b.txt] survives a Skip. *)
Lemma skip_leaves_target_untouched_witness :
  copySingleItem host b_txt utils (conflicting (Some "Skip"%string))
  = (skipped, answered,
     [EStat (Uri_file "/home/u/utils/b.txt") (Returned File);
      EWarningModal (promptMessage "b.txt" "/home/u/utils") overwriteItems
        (Some "Skip"%string)])
  /\ Sim.lookup "/home/u/utils/b.txt" (Sim.entries answered)
     = Some (Sim.FileEntry "old").
Proof.
  split; [|reflexivity].
  exact (proj1 (skip_leaves_target_untouched host b_txt utils
                  (conflicting (Some "Skip"%string)) _ answered File
                  eq_refl eq_refl)).
Defined.

(** Two copied and one skipped. *)
Lemma completion_message_witness :
  copyToDestination host [a_txt; b_txt; c_txt]
    (conflicting (Some "Skip"%string))
  = (tt,
     Sim.withEntries answered
       (Sim.file "/home/u/utils/c.txt" "C"
          :: Sim.file "/home/u/utils/a.txt" "A" :: Sim.entries answered),
     [EStat utils (Returned Directory);
      EStat (Uri_file "/home/u/utils/a.txt") absent;
      ECopy a_txt (Uri_file "/home/u/utils/a.txt") true (Returned tt);
      EStat (Uri_file "/home/u/utils/b.txt") (Returned File);
      EWarningModal (promptMessage "b.txt" "/home/u/utils") overwriteItems
        (Some "Skip"%string);
      EStat (Uri_file "/home/u/utils/c.txt") absent;
      ECopy c_txt (Uri_file "/home/u/utils/c.txt") true (Returned tt);
      EInformationMessage "Copied 2 item(s) to ~/utils. Skipped 1."]).
Proof.
  destruct (completion_message host [a_txt; b_txt; c_txt] utils
              (conflicting (Some "Skip"%string)) _ _ _ _ _ _ 2 1
              eq_refl eq_refl eq_refl)
    as (final & Hrun & _ & Hboth & _).
  rewrite (Hboth ltac:(lia) ltac:(lia)) in Hrun. exact Hrun.
Defined.

(** ** Further runs from the scenarios of the specification *)

(** Ensuring twice: the first call creates [~/utils], the second finds it
    and does not create again. *)
Example ensure_twice_on_fresh :
  ensureDestinationDirectory host utils fresh
  = (true, Sim.withEntries fresh (Sim.dir "/home/u/utils" :: sources),
     [EStat utils absent; ECreateDirectory utils (Returned tt)])
  /\ ensureDestinationDirectory host utils
       (Sim.withEntries fresh (Sim.dir "/home/u/utils" :: sources))
     = (true, Sim.withEntries fresh (Sim.dir "/home/u/utils" :: sources),
        [EStat utils (Returned Directory)]).
Proof. split; reflexivity. Qed.

(** A volume that rejects writes: one error message, nothing copied. *)
Example creation_failure_aborts_batch :
  copyToDestination host [a_txt; b_txt] locked
  = (tt, locked,
     [EStat utils absent;
      ECreateDirectory utils (Threw "NoPermissions (FileSystemError)");
      EErrorMessage
        "Failed to create destination directory: NoPermissions (FileSystemError)"]).
Proof. reflexivity. Qed.

(** One file conflicts and the user picks Overwrite: the copy is made and
    the newer content is what a lookup finds. *)
Example overwrite_replaces_target :
  copyToDestination host [b_txt] (conflicting (Some "Overwrite"%string))
  = (tt,
     Sim.withEntries answered
       (Sim.file "/home/u/utils/b.txt" "B" :: Sim.entries answered),
     [EStat utils (Returned Directory);
      EStat (Uri_file "/home/u/utils/b.txt") (Returned File);
      EWarningModal (promptMessage "b.txt" "/home/u/utils") overwriteItems
        (Some "Overwrite"%string);
      ECopy b_txt (Uri_file "/home/u/utils/b.txt") true (Returned tt);
      EInformationMessage "Copied 1 item(s) to ~/utils."])
  /\ Sim.lookup "/home/u/utils/b.txt"
       (Sim.file "/home/u/utils/b.txt" "B" :: Sim.entries answered)
     = Some (Sim.FileEntry "B").
Proof. split; reflexivity. Qed.

(** A defined but empty multi-selection wins over a single uri. *)
Example empty_selection_warns :
  commandHandler host (Some a_txt) (Some []) fresh
  = (tt, fresh, [EWarningMessage "No files or folders selected."]).
Proof. reflexivity. Qed.

(** * Further properties of the code *)

(** ** Path helpers *)

Lemma startsWith_slash_inv (s : string) :
  JsString.startsWith s "/" = true -> exists s', s = String "/" s'.
Proof.
  unfold JsString.startsWith.
  destruct s as [|c s']; cbn -[ascii_dec]; [discriminate|].
  destruct (ascii_dec "/"%char c) as [<-|]; [|discriminate]. now eexists.
Qed.

Lemma normalize_absolute (p : string) :
  JsString.startsWith p "/" = true ->
  JsString.startsWith (NodePath.normalize p) "/" = true.
Proof.
  intros H. destruct (startsWith_slash_inv p H) as (p' & ->).
  unfold NodePath.normalize. rewrite H.
  change (String.eqb (String "/" p') "") with false. cbv iota.
  destruct (String.eqb (NodePath.normalizeString (String "/" p') (negb true)) "");
    [reflexivity|].
  apply (startsWith_append "/").
Qed.

Lemma join_absolute (a b : string) :
  JsString.startsWith a "/" = true ->
  JsString.startsWith (NodePath.join a b) "/" = true.
Proof.
  intros H. destruct (startsWith_slash_inv a H) as (a' & ->).
  unfold NodePath.join.
  change (String.eqb (String "/" a') "") with false. cbv iota.
  destruct (String.eqb b ""); apply normalize_absolute; [exact H|].
  apply (startsWith_append "/" (a' ++ "/" ++ b)).
Qed.

Lemma startsWith_split (p a : string) :
  JsString.startsWith p a = true ->
  p = (a ++ JsString.slice (String.length a) p)%string.
Proof.
  unfold JsString.startsWith. revert p.
  induction a as [|c a IH]; intros p H; [reflexivity|].
  destruct p as [|d p]; cbn -[ascii_dec] in H; [discriminate|].
  destruct (ascii_dec c d) as [<-|]; [|discriminate].
  simpl. f_equal. now apply IH.
Qed.

(** X1: when the home directory is an absolute path, the result of
    [resolvePath] never begins with the marker [~]: a path with the marker
    becomes absolute, any other path is returned as it is.  Hence resolving
    twice is the same as resolving once. *)
Theorem resolvePath_idempotent (home p : string) :
  JsString.startsWith home "/" = true ->
  (JsString.startsWith p "~" = true ->
   JsString.startsWith (resolvePath home p) "/" = true)
  /\ (JsString.startsWith p "~" = false -> resolvePath home p = p)
  /\ JsString.startsWith (resolvePath home p) "~" = false
  /\ resolvePath home (resolvePath home p) = resolvePath home p.
Proof.
  intros Hhome.
  assert (Hno : JsString.startsWith (resolvePath home p) "~" = false).
  { unfold resolvePath. destruct (JsString.startsWith p "~") eqn:E; [|exact E].
    destruct (startsWith_slash_inv _ (join_absolute home (JsString.slice 1 p) Hhome))
      as (q & ->).
    reflexivity. }
  repeat split.
  - intros E. unfold resolvePath. rewrite E. now apply join_absolute.
  - intros E. unfold resolvePath. now rewrite E.
  - exact Hno.
  - unfold resolvePath at 1. now rewrite Hno.
Qed.

(** The marker is resolved once, and the absolute result is left alone. *)
Lemma resolvePath_idempotent_witness :
  resolvePath "/home/u" (resolvePath "/home/u" "~/a/../utils")
  = resolvePath "/home/u" "~/a/../utils"
  /\ resolvePath "/home/u" "~/a/../utils" = "/home/u/utils"%string.
Proof.
  split; [|reflexivity].
  exact (proj2 (proj2 (proj2
           (resolvePath_idempotent "/home/u" "~/a/../utils" eq_refl)))).
Defined.

(** X2: [formatDestinationForDisplay] loses nothing.  A path that begins
    with the home directory is shown as the marker followed by the rest of
    the path, so putting the home directory back in place of the marker
    gives the path again, for every path and not only normalized ones; any
    other path is shown unchanged. *)
Theorem display_keeps_remainder (home p : string) :
  (JsString.startsWith p home = true ->
   formatDestinationForDisplay home p
   = ("~" ++ JsString.slice (String.length home) p)%string
   /\ (home ++ JsString.slice 1 (formatDestinationForDisplay home p))%string
      = p)
  /\ (JsString.startsWith p home = false ->
      formatDestinationForDisplay home p = p).
Proof.
  unfold formatDestinationForDisplay. split; intros E; rewrite E.
  - split; [reflexivity|]. simpl. symmetry. now apply startsWith_split.
  - reflexivity.
Qed.

(** ** Workflow *)

Lemma count_app {A : Type} (f : A -> bool) (l1 l2 : list A) :
  count f (l1 ++ l2) = count f l1 + count f l2.
Proof.
  unfold count. induction l1 as [|x l1 IH]; simpl; [reflexivity|].
  destruct (f x); simpl; now rewrite IH.
Qed.

Lemma count_zero {A : Type} (f : A -> bool) (l : list A) :
  existsb f l = false <-> count f l = 0.
Proof.
  unfold count. induction l as [|x l IH]; simpl; [tauto|].
  destruct (f x); simpl; [split; discriminate | exact IH].
Qed.

Section WorkflowExtras.

Context {World : Type} (host : Host World).

(** Every run of [copySingleItem] has one of six traces. *)
Lemma copySingleItem_shapes (sourceUri destUri : Uri) (w w' : World)
    (r : CopyResult) (t : list Event) :
  copySingleItem host sourceUri destUri w = (r, w', t) ->
  let fileName := NodePath.basename (fsPath sourceUri) in
  let target := Uri_joinPath destUri fileName in
  let message := promptMessage fileName (fsPath destUri) in
  (exists why v,
      r = success
      /\ t = [EStat target (Threw why);
              ECopy sourceUri target true (Returned v)])
  \/ (exists why reason,
         r = skipped
         /\ t = [EStat target (Threw why);
                 ECopy sourceUri target true (Threw reason);
                 EErrorMessage (copyFailedMessage fileName reason)])
  \/ (exists ty picked v,
         actionOf picked = overwrite /\ r = success
         /\ t = [EStat target (Returned ty);
                 EWarningModal message overwriteItems picked;
                 ECopy sourceUri target true (Returned v)])
  \/ (exists ty picked reason,
         actionOf picked = overwrite /\ r = skipped
         /\ t = [EStat target (Returned ty);
                 EWarningModal message overwriteItems picked;
                 ECopy sourceUri target true (Threw reason);
                 EErrorMessage (copyFailedMessage fileName reason)])
  \/ (exists ty picked,
         actionOf picked = skip /\ r = skipped
         /\ t = [EStat target (Returned ty);
                 EWarningModal message overwriteItems picked])
  \/ (exists ty picked,
         actionOf picked = cancel /\ r = cancelled
         /\ t = [EStat target (Returned ty);
                 EWarningModal message overwriteItems picked]).
Proof.
  intros H fileName target message.
  destruct (copySingleItem_path _ _ _ _ _ _ _ H)
    as [why w1 w2 r t Hs Hc | ty picked w1 w2 w3 r t Hs Hw Ha].
  - fold fileName target in Hc.
    destruct (copyOrReport_cases host sourceUri target fileName w1)
      as [(v & wc & _ & Hr)|(reason & wc & _ & Hr)];
      rewrite Hr in Hc; injection Hc as <- <- <-.
    + left. now exists why, v.
    + right; left. now exists why, reason.
  - fold fileName target in Ha. fold fileName target message.
    destruct (actionOf picked) eqn:Ea.
    + destruct (copyOrReport_cases host sourceUri target fileName w2)
        as [(v & wc & _ & Hr)|(reason & wc & _ & Hr)];
        rewrite Hr in Ha; injection Ha as <- <- <-.
      * do 2 right; left. now exists ty, picked, v.
      * do 3 right; left. now exists ty, picked, reason.
    + injection Ha as -> -> ->. do 4 right; left. now exists ty, picked.
    + injection Ha as -> -> ->. do 5 right. now exists ty, picked.
Qed.

Ltac item_shapes H :=
  let why := fresh "why" in
  let reason := fresh "reason" in
  let ty := fresh "ty" in
  let picked := fresh "picked" in
  let v := fresh "v" in
  let Ea := fresh "Ea" in
  destruct (copySingleItem_shapes _ _ _ _ _ _ H)
    as [(why & v & -> & ->)
       |[(why & reason & -> & ->)
        |[(ty & picked & v & Ea & -> & ->)
         |[(ty & picked & reason & Ea & -> & ->)
          |[(ty & picked & Ea & -> & ->)
           |(ty & picked & Ea & -> & ->)]]]]].

(** X3: one run of [copySingleItem] begins with the existence check of the
    target and makes no other; it shows at most one prompt, makes at most
    one mutating call, shows at most one error message and no information
    message, and creates no directory.  Its only possible copy is of the
    given source onto the destination joined with the base name of the
    source, with the overwrite flag set. *)
Theorem single_item_effects (sourceUri destUri : Uri) (w w' : World)
    (r : CopyResult) (t : list Event) :
  copySingleItem host sourceUri destUri w = (r, w', t) ->
  (exists found rest,
      t = EStat (Uri_joinPath destUri (NodePath.basename (fsPath sourceUri)))
            found :: rest
      /\ existsb isStat rest = false)
  /\ count isPrompt t <= 1
  /\ count isMutation t <= 1
  /\ count isErrorMessage t <= 1
  /\ existsb isInformation t = false
  /\ existsb isCreateDirectory t = false
  /\ (forall source target flag result,
         In (ECopy source target flag result) t ->
         source = sourceUri
         /\ target
            = Uri_joinPath destUri (NodePath.basename (fsPath sourceUri))
         /\ flag = true).
Proof.
  intros H.
  assert (Hcopy : forall (l : list Event) source target flag result,
             In (ECopy source target flag result) l ->
             (forall e, In e l ->
                        isCopy e = true ->
                        exists res,
                          e = ECopy sourceUri
                                (Uri_joinPath destUri
                                   (NodePath.basename (fsPath sourceUri)))
                                true res) ->
             source = sourceUri
             /\ target
                = Uri_joinPath destUri (NodePath.basename (fsPath sourceUri))
             /\ flag = true).
  { intros l source target flag result Hin Hall.
    destruct (Hall _ Hin eq_refl) as (res & E).
    injection E as -> -> -> _. repeat split. }
  item_shapes H;
    (split; [do 2 eexists; split; reflexivity|]);
    (repeat (split; [solve [cbv; lia | reflexivity]|]));
    intros source target flag result Hin;
    (apply (Hcopy _ _ _ _ _ Hin));
    intros e He Hc; simpl in He;
    repeat (destruct He as [<-|He]; [try discriminate Hc; now eexists|]);
    destruct He.
Qed.

(** X4: what [copySingleItem] returns can be read off its trace.  It
    returns success exactly when its copy call returned; skipped exactly
    when its copy call threw or the prompt was answered Skip; cancelled
    exactly when the prompt was answered with anything that is neither
    Overwrite nor Skip, and then it has made no mutating call. *)
Theorem single_item_result (sourceUri destUri : Uri) (w w' : World)
    (r : CopyResult) (t : list Event) :
  copySingleItem host sourceUri destUri w = (r, w', t) ->
  (r = success <-> existsb isSucceededCopy t = true)
  /\ (r = skipped <->
      existsb isFailedCopy t = true \/ existsb isSkipAnswer t = true)
  /\ (r = cancelled <-> existsb isCancelAnswer t = true)
  /\ (r = cancelled -> existsb isMutation t = false).
Proof.
  intros H.
  item_shapes H; simpl; try rewrite Ea; simpl;
    repeat split; intros; try discriminate; try reflexivity; auto;
    repeat match goal with
           | Hor : _ \/ _ |- _ => destruct Hor
           end; discriminate.
Qed.

(** X5: when the target exists, the user answers Overwrite and the copy
    call returns, [copySingleItem] returns success after the existence
    check, the prompt and one copy with the overwrite flag set, and the
    loop goes on with the copied counter incremented. *)
Theorem overwrite_proceeds_to_copy (sourceUri destUri : Uri)
    (w w1 w2 w3 : World) (ty : FileType) (v : unit) :
  let fileName := NodePath.basename (fsPath sourceUri) in
  let target := Uri_joinPath destUri fileName in
  let message :=
    (dquote ++ fileName ++ dquote ++ " already exists in " ++ fsPath destUri
       ++ ". What would you like to do?")%string in
  let items := ["Overwrite"; "Skip"; "Cancel"]%string in
  fs_stat host target w = (Returned ty, w1) ->
  window_showWarningModal host message items w1
  = (Some "Overwrite"%string, w2) ->
  fs_copy host sourceUri target true w2 = (Returned v, w3) ->
  copySingleItem host sourceUri destUri w
  = (success, w3,
     [EStat target (Returned ty);
      EWarningModal message items (Some "Overwrite"%string);
      ECopy sourceUri target true (Returned v)])
  /\ forall (rest : list Uri) (c k : nat),
       copyItems host destUri (sourceUri :: rest) c k w
       = prepend
           [EStat target (Returned ty);
            EWarningModal message items (Some "Overwrite"%string);
            ECopy sourceUri target true (Returned v)]
           (copyItems host destUri rest (S c) k w3).
Proof.
  intros fileName target message items Hs Hw Hc.
  assert (H : copySingleItem host sourceUri destUri w
              = (success, w3,
                 [EStat target (Returned ty);
                  EWarningModal message items (Some "Overwrite"%string);
                  ECopy sourceUri target true (Returned v)])).
  { unfold copySingleItem. fold fileName. fold target.
    rewrite (bind_prepend _ _ _ _ _ _ (targetExists_found _ _ _ _ _ Hs)).
    rewrite (bind_prepend _ _ _ _ _ _
               (promptOverwrite_run _ fileName (fsPath destUri) _ _ _ Hw)).
    change (actionOf (Some "Overwrite"%string)) with overwrite. cbv iota.
    now rewrite (copyOrReport_returned _ _ _ fileName _ _ _ Hc). }
  split; [exact H|].
  intros rest c k. now rewrite (copyItems_step _ _ _ _ _ _ _ _ _ _ H).
Qed.

(** X6: [promptOverwrite] shows one modal warning with the three actions
    Overwrite, Skip and Cancel, in this order, and reads the answer by exact
    comparison: Overwrite and Skip are recognised, and every other answer,
    the dismissal of the dialog included, is a cancellation. *)
Theorem prompt_answer_reading (fileName destPath : string) (w : World) :
  let message :=
    (dquote ++ fileName ++ dquote ++ " already exists in " ++ destPath
       ++ ". What would you like to do?")%string in
  let items := ["Overwrite"; "Skip"; "Cancel"]%string in
  exists action picked w',
    window_showWarningModal host message items w = (picked, w')
    /\ promptOverwrite host fileName destPath w
       = (action, w', [EWarningModal message items picked])
    /\ (action = overwrite <-> picked = Some "Overwrite"%string)
    /\ (action = skip <-> picked = Some "Skip"%string)
    /\ (action = cancel <->
        picked <> Some "Overwrite"%string /\ picked <> Some "Skip"%string).
Proof.
  intros message items.
  destruct (window_showWarningModal host message items w) as [picked w'] eqn:E.
  exists (actionOf picked), picked, w'.
  split; [reflexivity|].
  split; [exact (promptOverwrite_run _ _ _ _ _ _ E)|].
  assert (Hsolve : forall a : OverwriteAction,
             a = actionOf picked ->
             (a = overwrite <-> picked = Some "Overwrite"%string)
             /\ (a = skip <-> picked = Some "Skip"%string)
             /\ (a = cancel <->
                 picked <> Some "Overwrite"%string
                 /\ picked <> Some "Skip"%string)).
  { intros a ->. unfold actionOf. destruct picked as [label|].
    - destruct (String.eqb_spec label "Overwrite") as [->|NO].
      + split; [split; reflexivity|].
        split; [split; discriminate|].
        split; [discriminate | intros [HO _]; now elim HO].
      + destruct (String.eqb_spec label "Skip") as [->|NS].
        * split; [split; discriminate|].
          split; [split; reflexivity|].
          split; [discriminate | intros [_ HS]; now elim HS].
        * split; [split; [discriminate | intros HO; injection HO as ->; now elim NO]|].
          split; [split; [discriminate | intros HS; injection HS as ->; now elim NS]|].
          split; [intros _ | reflexivity].
          split; intros HL; injection HL as ->; [now elim NO | now elim NS].
    - split; [split; discriminate|].
      split; [split; discriminate|].
      split; [intros _; split; discriminate | reflexivity]. }
  exact (Hsolve _ eq_refl).
Qed.

(** *** Destination and directory *)

Lemma getDestinationUri_configured (w : World) :
  configuredPathIn host w <> EmptyString ->
  getDestinationUri host w
  = (Some (Uri_file (resolvePath (os_homedir host) (configuredPathIn host w))),
     w, []).
Proof.
  intros NE. unfold getDestinationUri, getConfiguredPath, bind at 1.
  apply String.eqb_neq in NE. rewrite NE. reflexivity.
Qed.

Lemma getDestinationUri_picked (w w' : World) (selected : option (list Uri)) :
  configuredPathIn host w = EmptyString ->
  window_showOpenDialog host selectDestinationOptions w = (selected, w') ->
  getDestinationUri host w
  = (match selected with
     | Some (first :: _) => Some first
     | _ => None
     end, w', [EShowOpenDialog selectDestinationOptions selected]).
Proof.
  intros E Hd. unfold getDestinationUri, getConfiguredPath, bind at 1.
  rewrite E. change (negb (String.eqb EmptyString EmptyString)) with false.
  cbv iota. unfold bind, showOpenDialog, ret. rewrite Hd.
  destruct selected as [[|first others]|]; reflexivity.
Qed.

Lemma getDestinationUri_trace (w w' : World) (r : option Uri)
    (t : list Event) :
  getDestinationUri host w = (r, w', t) ->
  t = [] \/ exists selected, t = [EShowOpenDialog selectDestinationOptions selected].
Proof.
  destruct (String.eqb_spec (configuredPathIn host w) EmptyString) as [E|NE].
  - destruct (window_showOpenDialog host selectDestinationOptions w)
      as [selected w1] eqn:Hd.
    rewrite (getDestinationUri_picked _ _ _ E Hd).
    intros H. injection H as _ _ <-. right. now eexists.
  - rewrite (getDestinationUri_configured _ NE).
    intros H. injection H as _ _ <-. now left.
Qed.

Lemma ensureDestinationDirectory_shapes (destUri : Uri) (w w' : World)
    (b : bool) (t : list Event) :
  ensureDestinationDirectory host destUri w = (b, w', t) ->
  (exists ty, b = true /\ t = [EStat destUri (Returned ty)])
  \/ (exists why v,
         b = true
         /\ t = [EStat destUri (Threw why);
                 ECreateDirectory destUri (Returned v)])
  \/ (exists why reason,
         b = false
         /\ t = [EStat destUri (Threw why);
                 ECreateDirectory destUri (Threw reason);
                 EErrorMessage
                   ("Failed to create destination directory: " ++ reason)%string]).
Proof.
  unfold ensureDestinationDirectory, bind, stat, createDirectory,
    showErrorMessage, emit, ret.
  destruct (fs_stat host destUri w) as [[ty|why] w1].
  - intros H. injection H as <- _ <-. left. now exists ty.
  - destruct (fs_createDirectory host destUri w1) as [[v|reason] w2];
      intros H; injection H as <- _ <-.
    + right; left. now exists why, v.
    + right; right. now exists why, reason.
Qed.

(** The three ways [copyToDestination] can go, with the traces of its
    phases. *)
Lemma copyToDestination_cases (uris : list Uri) (w : World) :
  (exists w1 e1,
      getDestinationUri host w = (None, w1, e1)
      /\ copyToDestination host uris w = (tt, w1, e1))
  \/ (exists destUri w1 e1 w2 e2,
         getDestinationUri host w = (Some destUri, w1, e1)
         /\ ensureDestinationDirectory host destUri w1 = (false, w2, e2)
         /\ copyToDestination host uris w = (tt, w2, e1 ++ e2))
  \/ (exists destUri w1 e1 w2 e2 counts w3 e3,
         getDestinationUri host w = (Some destUri, w1, e1)
         /\ ensureDestinationDirectory host destUri w1 = (true, w2, e2)
         /\ copyItems host destUri uris 0 0 w2 = (counts, w3, e3)
         /\ copyToDestination host uris w
            = prepend (e1 ++ e2 ++ e3)
                (match counts with
                 | Some (copiedCount, skippedCount) =>
                     showCompletion
                       (formatDestinationForDisplay (os_homedir host)
                          (fsPath destUri))
                       copiedCount skippedCount w3
                 | None => (tt, w3, [])
                 end)).
Proof.
  destruct (getDestinationUri host w) as [[[destUri|] w1] e1] eqn:Hd.
  - destruct (ensureDestinationDirectory host destUri w1) as [[[|] w2] e2] eqn:He.
    + destruct (copyItems host destUri uris 0 0 w2) as [[counts w3] e3] eqn:Hc.
      right; right. exists destUri, w1, e1, w2, e2, counts, w3, e3.
      split; [reflexivity|]. split; [exact He|]. split; [exact Hc|].
      exact (copyToDestination_run host uris destUri w w1 w2 w3 e1 e2 e3
               counts Hd He Hc).
    + right; left. exists destUri, w1, e1, w2, e2.
      split; [reflexivity|]. split; [exact He|].
      unfold copyToDestination.
      rewrite (bind_prepend _ _ _ _ _ _ Hd), (bind_prepend _ _ _ _ _ _ He).
      simpl. now rewrite app_nil_r.
  - left. exists w1, e1. split; [reflexivity|].
    unfold copyToDestination. rewrite (bind_prepend _ _ _ _ _ _ Hd).
    simpl. now rewrite app_nil_r.
Qed.

(** X7: [getDestinationUri] never touches the file system and shows no
    message.  With a non-empty setting it returns the resolved setting at
    once, without opening the picker and without checking that the folder
    exists.  With an empty setting it opens the folder picker once (folders
    only, single selection) and returns the first folder picked.  It returns
    none exactly when the setting is empty and the picker gave nothing or an
    empty selection. *)
Theorem destination_provider (w w' : World) (r : option Uri)
    (t : list Event) :
  let options :=
    {| canSelectFiles := false; canSelectFolders := true;
       canSelectMany := false; openLabel := "Select Destination";
       title := "Select destination folder for copy" |} in
  getDestinationUri host w = (r, w', t) ->
  (configuredPathIn host w <> EmptyString ->
   r = Some (Uri_file (resolvePath (os_homedir host) (configuredPathIn host w)))
   /\ w' = w /\ t = [])
  /\ (configuredPathIn host w = EmptyString ->
      exists selected,
        window_showOpenDialog host options w = (selected, w')
        /\ t = [EShowOpenDialog options selected])
  /\ (forall first others,
         In (EShowOpenDialog options (Some (first :: others))) t ->
         r = Some first)
  /\ (r = None <->
      configuredPathIn host w = EmptyString
      /\ (t = [EShowOpenDialog options None]
          \/ t = [EShowOpenDialog options (Some [])]))
  /\ existsb isStat t = false
  /\ existsb isMutation t = false
  /\ existsb isMessage t = false.
Proof.
  intros options H.
  destruct (String.eqb_spec (configuredPathIn host w) EmptyString) as [E|NE].
  - destruct (window_showOpenDialog host selectDestinationOptions w)
      as [selected w1] eqn:Hd.
    rewrite (getDestinationUri_picked _ _ _ E Hd) in H.
    injection H as <- <- <-.
    split; [intros NE; now elim NE|].
    split; [intros _; now exists selected|].
    split.
    { intros first others [Hin|[]]. injection Hin as ->. reflexivity. }
    split; [|repeat split].
    split.
    + intros Hr. split; [exact E|].
      destruct selected as [[|first others]|];
        [now right | discriminate Hr | now left].
    + intros [_ [Ht|Ht]]; injection Ht as ->; reflexivity.
  - rewrite (getDestinationUri_configured _ NE) in H.
    injection H as <- <- <-.
    split; [intros _; repeat split|].
    split; [intros E; now elim NE|].
    split; [intros first others []|].
    split; [|repeat split].
    split; [discriminate | intros [E _]; now elim NE].
Qed.

(** X8: a failed creation of the destination directory ends the batch.
    Whatever the source list, [copyToDestination] returns after the one
    error message of [ensureDestinationDirectory]: no item is checked or
    copied and no summary is shown. *)
Theorem creation_failure_is_fatal (uris : list Uri) (destUri : Uri)
    (w0 w1 w2 : World) (e1 e2 : list Event) :
  getDestinationUri host w0 = (Some destUri, w1, e1) ->
  ensureDestinationDirectory host destUri w1 = (false, w2, e2) ->
  copyToDestination host uris w0 = (tt, w2, e1 ++ e2)
  /\ (exists why reason,
         e2 = [EStat destUri (Threw why);
               ECreateDirectory destUri (Threw reason);
               EErrorMessage
                 ("Failed to create destination directory: " ++ reason)%string])
  /\ existsb isCopy (e1 ++ e2) = false
  /\ existsb isPrompt (e1 ++ e2) = false
  /\ existsb isInformation (e1 ++ e2) = false
  /\ count isErrorMessage (e1 ++ e2) = 1.
Proof.
  intros Hd He.
  split.
  { unfold copyToDestination.
    rewrite (bind_prepend _ _ _ _ _ _ Hd), (bind_prepend _ _ _ _ _ _ He).
    simpl. now rewrite app_nil_r. }
  destruct (ensureDestinationDirectory_shapes _ _ _ _ _ He)
    as [(ty & Hb & _)|[(why & v & Hb & _)|(why & reason & _ & ->)]];
    try discriminate Hb.
  split; [now exists why, reason|].
  destruct (getDestinationUri_trace _ _ _ _ Hd) as [->|(selected & ->)];
    repeat split.
Qed.


(** *** The loop *)




Lemma copySingleItem_counts (sourceUri destUri : Uri) (w w' : World)
    (r : CopyResult) (t : list Event) :
  copySingleItem host sourceUri destUri w = (r, w', t) ->
  count isErrorMessage t = count isFailedCopy t
  /\ count isPrompt t = count isConflict t
  /\ count isCopy t <= 1
  /\ count isInformation t = 0
  /\ count isSucceededCopy t = (if isSuccess r then 1 else 0)
  /\ count isFailedCopy t + count isSkipAnswer t
     = (if isSkipped r then 1 else 0)
  /\ count isCancelAnswer t
     = match r with cancelled => 1 | _ => 0 end.
Proof.
  intros H. unfold count.
  item_shapes H; simpl; try rewrite Ea; simpl; repeat split; lia.
Qed.

(** The books of the loop: what the counters and the messages say agrees
    with the calls made. *)
Lemma copyItems_accounting (destUri : Uri) (uris : list Uri) :
  forall (c k : nat) (w w' : World) (res : option (nat * nat))
         (t : list Event),
    copyItems host destUri uris c k w = (res, w', t) ->
    count isErrorMessage t = count isFailedCopy t
    /\ count isPrompt t = count isConflict t
    /\ count isCopy t <= List.length uris
    /\ match res with
       | Some (c', k') =>
           c' = c + count isSucceededCopy t
           /\ k' = k + count isFailedCopy t + count isSkipAnswer t
           /\ count isInformation t = 0
           /\ count isCancelAnswer t = 0
       | None =>
           exists t0,
             t = t0
                   ++ [EInformationMessage
                         (cancelledMessage
                            (c + count isSucceededCopy t0)
                            (k + count isFailedCopy t0
                               + count isSkipAnswer t0))]
             /\ count isInformation t0 = 0
             /\ count isCancelAnswer t0 = 1
       end.
Proof.
  induction uris as [|uri rest IH]; intros c k w w' res t H.
  - simpl in H. unfold ret in H. injection H as <- _ <-.
    unfold count. simpl. repeat split; lia.
  - destruct (copySingleItem host uri destUri w) as [[r w1] t1] eqn:E.
    rewrite (copyItems_step _ _ _ _ _ _ _ _ _ _ E) in H.
    destruct (copySingleItem_counts _ _ _ _ _ _ E)
      as (He1 & Hp1 & Hc1 & Hi1 & Hs1 & Hk1 & Ha1).
    assert (Hrec : forall c2 k2 x w2 t2,
               copyItems host destUri rest c2 k2 w1 = (x, w2, t2) ->
               c2 = c + count isSucceededCopy t1 ->
               k2 = k + count isFailedCopy t1 + count isSkipAnswer t1 ->
               count isCancelAnswer t1 = 0 ->
               count isErrorMessage (t1 ++ t2) = count isFailedCopy (t1 ++ t2)
               /\ count isPrompt (t1 ++ t2) = count isConflict (t1 ++ t2)
               /\ count isCopy (t1 ++ t2) <= List.length (uri :: rest)
               /\ match x with
                  | Some (c', k') =>
                      c' = c + count isSucceededCopy (t1 ++ t2)
                      /\ k' = k + count isFailedCopy (t1 ++ t2)
                              + count isSkipAnswer (t1 ++ t2)
                      /\ count isInformation (t1 ++ t2) = 0
                      /\ count isCancelAnswer (t1 ++ t2) = 0
                  | None =>
                      exists t0,
                        t1 ++ t2
                        = t0
                            ++ [EInformationMessage
                                  (cancelledMessage
                                     (c + count isSucceededCopy t0)
                                     (k + count isFailedCopy t0
                                        + count isSkipAnswer t0))]
                        /\ count isInformation t0 = 0
                        /\ count isCancelAnswer t0 = 1
                  end).
    { intros c2 k2 x w2 t2 E2 Hc2 Hk2 Hz.
      destruct (IH _ _ _ _ _ _ E2) as (He2 & Hp2 & Hcp2 & Hx).
      rewrite !count_app. simpl List.length.
      split; [lia|]. split; [lia|]. split; [lia|].
      destruct x as [[c' k']|].
      - destruct Hx as (-> & -> & Hi2 & Ha2).
        repeat split; lia.
      - destruct Hx as (t0 & -> & Hi0 & Ha0).
        exists (t1 ++ t0). rewrite ?count_app, <- app_assoc.
        split; [|split; lia].
        replace (c + (count isSucceededCopy t1 + count isSucceededCopy t0))
          with (c2 + count isSucceededCopy t0) by lia.
        replace (k + (count isFailedCopy t1 + count isFailedCopy t0)
                 + (count isSkipAnswer t1 + count isSkipAnswer t0))
          with (k2 + count isFailedCopy t0 + count isSkipAnswer t0) by lia.
        reflexivity. }
    destruct r; simpl in Hs1, Hk1, Ha1.
    + destruct (copyItems host destUri rest (S c) k w1) as [[x w2] t2] eqn:E2.
      simpl in H. injection H as <- _ <-.
      apply (Hrec _ _ _ _ _ E2); lia.
    + destruct (copyItems host destUri rest c (S k) w1) as [[x w2] t2] eqn:E2.
      simpl in H. injection H as <- _ <-.
      apply (Hrec _ _ _ _ _ E2); lia.
    + injection H as <- _ <-.
      rewrite !count_app. unfold count at 2 4 6 8 10. simpl.
      split; [lia|]. split; [lia|]. split; [lia|].
      exists t1. split; [|split; lia].
      replace (count isSucceededCopy t1) with 0 by lia.
      replace (count isFailedCopy t1) with 0 by lia.
      replace (count isSkipAnswer t1) with 0 by lia.
      now rewrite !Nat.add_0_r.
Qed.

Lemma copyItems_app_cancelled (destUri : Uri) (pre post : list Uri) :
  forall (c k : nat) (w w1 : World) (t1 : list Event),
    copyItems host destUri pre c k w = (None, w1, t1) ->
    copyItems host destUri (pre ++ post) c k w = (None, w1, t1).
Proof.
  induction pre as [|uri pre IH]; intros c k w w1 t1 H.
  - discriminate H.
  - simpl app.
    destruct (copySingleItem host uri destUri w) as [[r w0] t0] eqn:E.
    rewrite (copyItems_step _ _ _ pre _ _ _ _ _ _ E) in H.
    rewrite (copyItems_step _ _ _ (pre ++ post) _ _ _ _ _ _ E).
    destruct r; [| |exact H].
    + destruct (copyItems host destUri pre (S c) k w0) as [[x w2] t2] eqn:E2.
      simpl in H. injection H as -> <- <-.
      now rewrite (IH _ _ _ _ _ E2).
    + destruct (copyItems host destUri pre c (S k) w0) as [[x w2] t2] eqn:E2.
      simpl in H. injection H as -> <- <-.
      now rewrite (IH _ _ _ _ _ E2).
Qed.

(** X10: the loop is a left-to-right scan that can be cut anywhere.  If the
    loop over a first part of the list ends with counters, the loop over
    the whole list is that run followed by the loop over the rest, started
    from these counters in the world the first part left; if the first part
    is cancelled, the run over the whole list is the run over the first
    part, and the rest is never looked at. *)
Theorem batch_splits (destUri : Uri) (pre post : list Uri) (c k : nat)
    (w : World) :
  match copyItems host destUri pre c k w with
  | (Some (c', k'), w1, t1) =>
      copyItems host destUri (pre ++ post) c k w
      = prepend t1 (copyItems host destUri post c' k' w1)
  | (None, w1, t1) =>
      copyItems host destUri (pre ++ post) c k w = (None, w1, t1)
  end.
Proof.
  destruct (copyItems host destUri pre c k w) as [[[[c' k']|] w1] t1] eqn:E.
  - now apply copyItems_app.
  - now apply copyItems_app_cancelled.
Qed.

(** *** The whole run *)



Lemma count_zero_In {A : Type} (f : A -> bool) (l : list A) (x : A) :
  count f l = 0 -> In x l -> f x = false.
Proof.
  intros Hc Hin. apply count_zero in Hc.
  destruct (f x) eqn:E; [|reflexivity].
  assert (Hex : existsb f l = true) by (apply existsb_exists; now exists x).
  congruence.
Qed.

(** The traces of the two opening phases hold no copy, prompt answer or
    information message. *)
Lemma opening_counts (destUri : Uri) (w0 w1 w2 : World) (e1 e2 : list Event)
    (b : bool) (r : option Uri) :
  getDestinationUri host w0 = (r, w1, e1) ->
  ensureDestinationDirectory host destUri w1 = (b, w2, e2) ->
  count isSucceededCopy (e1 ++ e2) = 0
  /\ count isFailedCopy (e1 ++ e2) = 0
  /\ count isSkipAnswer (e1 ++ e2) = 0
  /\ count isCancelAnswer (e1 ++ e2) = 0
  /\ count isInformation (e1 ++ e2) = 0.
Proof.
  intros Hd He.
  destruct (ensureDestinationDirectory_shapes _ _ _ _ _ He)
    as [(ty & _ & ->)|[(why & v & _ & ->)|(why & reason & _ & ->)]];
    destruct (getDestinationUri_trace _ _ _ _ Hd) as [->|(selected & ->)];
    repeat split.
Qed.

(** X12: the summary tells what was done.  An information message, when a
    run of [copyToDestination] shows one, is the last entry of the trace and
    the only one of its kind, and its numbers are those of the calls made
    before it: the copied count is the number of copy calls that returned,
    the skipped count is the number of copy calls that threw plus the
    number of prompts answered Skip.  After a cancellation the message is
    the Cancelled one; otherwise the two counts add up to the number of
    selected items and the message is chosen by their signs. *)
Theorem summary_reports_the_calls (uris : list Uri) (w w' : World)
    (t : list Event) (m : string) :
  copyToDestination host uris w = (tt, w', t) ->
  In (EInformationMessage m) t ->
  exists t0 destUri,
    t = t0 ++ [EInformationMessage m]
    /\ existsb isInformation t0 = false
    /\ fst (fst (getDestinationUri host w)) = Some destUri
    /\ let c := count isSucceededCopy t0 in
       let s := count isFailedCopy t0 + count isSkipAnswer t0 in
       let display :=
         formatDestinationForDisplay (os_homedir host) (fsPath destUri) in
       (existsb isCancelAnswer t0 = true
        /\ m = ("Cancelled. Copied " ++ JsString.ofNat c
                  ++ " item(s), skipped " ++ JsString.ofNat s ++ ".")%string)
       \/ (existsb isCancelAnswer t0 = false
           /\ c + s = List.length uris
           /\ ((0 < c /\ s = 0
                /\ m = ("Copied " ++ JsString.ofNat c ++ " item(s) to "
                          ++ display ++ ".")%string)
               \/ (0 < c /\ 0 < s
                   /\ m = ("Copied " ++ JsString.ofNat c ++ " item(s) to "
                             ++ display ++ ". Skipped " ++ JsString.ofNat s
                             ++ ".")%string)
               \/ (c = 0 /\ 0 < s
                   /\ m = ("All " ++ JsString.ofNat s
                             ++ " item(s) were skipped.")%string))).
Proof.
  intros H Hin.
  destruct (copyToDestination_cases uris w)
    as [(w1 & e1 & Hd & Hrun)
       |[(destUri & w1 & e1 & w2 & e2 & Hd & He & Hrun)
        |(destUri & w1 & e1 & w2 & e2 & counts & w3 & e3 & Hd & He & Hc
          & Hrun)]];
    rewrite Hrun in H.
  - injection H as _ <-.
    destruct (getDestinationUri_trace _ _ _ _ Hd) as [->|(selected & ->)];
      simpl in Hin; repeat (destruct Hin as [Hin|Hin]; try discriminate Hin);
      destruct Hin.
  - injection H as _ <-.
    destruct (opening_counts _ _ _ _ _ _ _ _ Hd He) as (_ & _ & _ & _ & Hi).
    pose proof (count_zero_In _ _ _ Hi Hin) as Hf. discriminate Hf.
  - destruct (opening_counts _ _ _ _ _ _ _ _ Hd He)
      as (Hs12 & Hf12 & Hk12 & Ha12 & Hi12).
    destruct (copyItems_accounting _ _ _ _ _ _ _ _ Hc) as (_ & _ & _ & Hacc).
    rewrite Hd. simpl fst.
    destruct counts as [[c k]|].
    + destruct Hacc as (Hcv & Hkv & Hi3 & Ha3). simpl in Hcv, Hkv.
      destruct (copyItems_counts _ _ _ _ _ _ _ _ _ _ Hc) as (_ & _ & Hlen).
      simpl in Hlen.
      assert (Hi0 : count isInformation (e1 ++ e2 ++ e3) = 0)
        by (rewrite app_assoc, count_app; lia).
      assert (Hs0 : count isSucceededCopy (e1 ++ e2 ++ e3) = c)
        by (rewrite app_assoc, count_app; lia).
      assert (Hk0 : count isFailedCopy (e1 ++ e2 ++ e3)
                    + count isSkipAnswer (e1 ++ e2 ++ e3) = k)
        by (rewrite app_assoc, (count_app isFailedCopy (e1 ++ e2)),
              (count_app isSkipAnswer (e1 ++ e2)); lia).
      assert (Ha0 : count isCancelAnswer (e1 ++ e2 ++ e3) = 0)
        by (rewrite app_assoc, count_app; lia).
      assert (Htail : exists e4,
                 t = (e1 ++ e2 ++ e3) ++ e4
                 /\ showCompletion
                      (formatDestinationForDisplay (os_homedir host)
                         (fsPath destUri)) c k w3 = (tt, w3, e4)).
      { unfold showCompletion, showInformationMessage, emit, ret in *.
        destruct (Nat.ltb 0 c); [|destruct (Nat.ltb 0 k)];
          simpl in H; injection H as _ <-; eexists; split;
          try reflexivity; now rewrite <- !app_assoc. }
      destruct Htail as (e4 & -> & E4).
      apply in_app_or in Hin. destruct Hin as [Hin|Hin].
      { pose proof (count_zero_In _ _ _ Hi0 Hin) as Hf. discriminate Hf. }
      exists (e1 ++ e2 ++ e3), destUri.
      apply count_zero in Hi0, Ha0.
      unfold showCompletion, showInformationMessage, emit, ret in E4.
      rewrite Hs0, Hk0.
      destruct (Nat.ltb 0 c) eqn:Lc.
      * apply Nat.ltb_lt in Lc.
        destruct (Nat.ltb 0 k) eqn:Lk;
          injection E4 as <-; destruct Hin as [Hm|[]]; injection Hm as <-;
          (split; [reflexivity|]); (split; [exact Hi0|]);
          (split; [reflexivity|]); right;
          (split; [exact Ha0|]); (split; [exact Hlen|]).
        -- apply Nat.ltb_lt in Lk. right; left. repeat split; assumption.
        -- apply Nat.ltb_ge in Lk. left.
           assert (k = 0) by lia. subst k. repeat split; assumption.
      * apply Nat.ltb_ge in Lc. assert (c = 0) by lia. subst c.
        destruct (Nat.ltb 0 k) eqn:Lk.
        -- apply Nat.ltb_lt in Lk.
           injection E4 as <-. destruct Hin as [Hm|[]]. injection Hm as <-.
           (split; [reflexivity|]); (split; [exact Hi0|]);
           (split; [reflexivity|]); right;
           (split; [exact Ha0|]); (split; [exact Hlen|]).
           right; right. repeat split; assumption.
        -- injection E4 as <-. destruct Hin.
    + destruct Hacc as (t3 & -> & Hi3 & Ha3).
      simpl in H. injection H as _ Ht.
      assert (Et : t = (e1 ++ e2 ++ t3)
                         ++ [EInformationMessage
                               (cancelledMessage (count isSucceededCopy t3)
                                  (count isFailedCopy t3
                                   + count isSkipAnswer t3))]).
      { rewrite <- Ht, app_nil_r, <- !app_assoc. reflexivity. }
      clear Ht. subst t.
      assert (Hi0 : count isInformation (e1 ++ e2 ++ t3) = 0)
        by (rewrite app_assoc, count_app; lia).
      assert (Hs0 : count isSucceededCopy (e1 ++ e2 ++ t3)
                    = count isSucceededCopy t3)
        by (rewrite app_assoc, count_app; lia).
      assert (Hf0 : count isFailedCopy (e1 ++ e2 ++ t3)
                    = count isFailedCopy t3)
        by (rewrite app_assoc, count_app; lia).
      assert (Hk0 : count isSkipAnswer (e1 ++ e2 ++ t3)
                    = count isSkipAnswer t3)
        by (rewrite app_assoc, count_app; lia).
      assert (Ha0 : existsb isCancelAnswer (e1 ++ e2 ++ t3) = true).
      { destruct (existsb isCancelAnswer (e1 ++ e2 ++ t3)) eqn:Ex;
          [reflexivity|].
        apply count_zero in Ex.
        rewrite app_assoc, count_app in Ex. lia. }
      apply in_app_or in Hin. destruct Hin as [Hin|Hin].
      { pose proof (count_zero_In _ _ _ Hi0 Hin) as Hf. discriminate Hf. }
      destruct Hin as [Hm|[]]. injection Hm as <-.
      exists (e1 ++ e2 ++ t3), destUri.
      split; [reflexivity|]. split; [now apply count_zero|].
      split; [reflexivity|].
      left. split; [exact Ha0|]. rewrite Hs0, Hf0, Hk0. reflexivity.
Qed.


End WorkflowExtras.

(** ** Runs of the further properties on the concrete host *)

(** An overwritten conflict: one prompt, one copy, no error. *)
Lemma single_item_effects_witness :
  count isPrompt
    (snd (copySingleItem host b_txt utils (conflicting (Some "Overwrite"%string))))
  <= 1
  /\ count isMutation
       (snd (copySingleItem host b_txt utils
               (conflicting (Some "Overwrite"%string))))
     <= 1
  /\ count isErrorMessage
       (snd (copySingleItem host b_txt utils
               (conflicting (Some "Overwrite"%string))))
     <= 1.
Proof.
  pose proof (single_item_effects host b_txt utils
                (conflicting (Some "Overwrite"%string)) _ _ _ eq_refl)
    as (_ & Hp & Hm & He & _).
  split; [exact Hp | split; [exact Hm | exact He]].
Defined.

(** A vanished source is skipped because its copy threw. *)
Lemma single_item_result_witness :
  existsb isFailedCopy (snd (copySingleItem host gone_txt utils fresh)) = true
  /\ fst (fst (copySingleItem host gone_txt utils fresh)) = skipped.
Proof.
  pose proof (single_item_result host gone_txt utils fresh _ _ _ eq_refl)
    as (_ & Hskipped & _).
  split; [reflexivity | exact (proj2 Hskipped (or_introl eq_refl))].
Defined.

(** The older [b.txt] is replaced by the newer one. *)
Lemma overwrite_proceeds_to_copy_witness :
  copySingleItem host b_txt utils (conflicting (Some "Overwrite"%string))
  = (success,
     Sim.withEntries answered
       (Sim.file "/home/u/utils/b.txt" "B" :: Sim.entries answered),
     [EStat (Uri_file "/home/u/utils/b.txt") (Returned File);
      EWarningModal (promptMessage "b.txt" "/home/u/utils") overwriteItems
        (Some "Overwrite"%string);
      ECopy b_txt (Uri_file "/home/u/utils/b.txt") true (Returned tt)]).
Proof.
  exact (proj1 (overwrite_proceeds_to_copy host b_txt utils
                  (conflicting (Some "Overwrite"%string)) _ answered _ File tt
                  eq_refl eq_refl eq_refl)).
Defined.

(** The setting [~/utils] gives [/home/u/utils] with no host call. *)
Lemma destination_provider_witness :
  getDestinationUri host fresh = (Some utils, fresh, [])
  /\ existsb isStat (snd (getDestinationUri host fresh)) = false.
Proof.
  pose proof (destination_provider host fresh fresh (Some utils) [] eq_refl)
    as (Hcfg & _ & _ & _ & Hs & _).
  split; [reflexivity | exact Hs].
Defined.

(** On the locked volume nothing is copied, whatever is selected. *)
Lemma creation_failure_is_fatal_witness :
  copyToDestination host [a_txt; b_txt; c_txt] locked
  = (tt, locked,
     [EStat utils absent;
      ECreateDirectory utils (Threw "NoPermissions (FileSystemError)");
      EErrorMessage
        "Failed to create destination directory: NoPermissions (FileSystemError)"]).
Proof.
  exact (proj1 (creation_failure_is_fatal host [a_txt; b_txt; c_txt] utils
                  locked locked locked [] _ eq_refl eq_refl)).
Defined.



(** The summary of that run is its last entry. *)
Lemma summary_reports_the_calls_witness :
  exists t0,
    snd (copyToDestination host [a_txt; b_txt; c_txt]
           (conflicting (Some "Skip"%string)))
    = t0 ++ [EInformationMessage "Copied 2 item(s) to ~/utils. Skipped 1."]
    /\ existsb isInformation t0 = false.
Proof.
  destruct (summary_reports_the_calls host [a_txt; b_txt; c_txt]
              (conflicting (Some "Skip"%string)) _ _
              "Copied 2 item(s) to ~/utils. Skipped 1." eq_refl
              ltac:(simpl; tauto))
    as (t0 & destUri & Et & Hi & _).
  exists t0. split; [exact Et | exact Hi].
Defined.

